(** * Data Alchemist client: service adapters, stores and the AI-fix page

    A shallow embedding of the client-side data-access layer:
    - [dataService] ([getEntities], [getValidationErrors]) and [aiService]
      ([getRuleRecommendations], [fixErrors]), both in [services/rules.ts],
    - [uploadService] ([getUploadStatus]),
    - [store/useDataStore.ts] ([setFilters]),
    - [components/RuleRecommendations.tsx] (query function and retry policy),
    - [app/settings/page.tsx] (the priority-weight gate of the save button),
    - [app/ai/fix/page.tsx] (ID reconciliation, batch cap, apply guard).

    Asynchronous handlers are modelled by explicit state passing: a handler
    maps the component state to the next state and the list of effects
    (toasts, mutations) it fires, in program order.  Backend responses are
    inputs of the functions that consume them. *)

From Stdlib Require Import ZArith Ascii String List Bool Lia.
From Stdlib Require Import Floats.SpecFloat.
From stdpp Require Import base gmap strings list pretty.

Open Scope string_scope.

(* ===================================================================== *)
(** * JavaScript values *)
(* ===================================================================== *)

(** The JSON scalars that cross the HTTP boundary as [any].  Numbers met
    by this layer (row indices, counts, suggested numeric values) are
    integers: [JNum n] is the whole number [n], fractions are not values
    of this type.  Objects are kept opaque, identified by their JSON
    text; arrays are not values of this type either. *)
Inductive jsval :=
| JUndefined
| JNull
| JBool (b : bool)
| JNum (n : Z)
| JStr (s : string)
| JObject (json : string).

(** ToBoolean: what [if (v)], [!v] and [v || d] test. *)
Definition truthy (v : jsval) : bool :=
  match v with
  | JUndefined | JNull => false
  | JBool b => b
  | JNum n => negb (n =? 0)%Z
  | JStr s => negb (s =? "")
  | JObject _ => true
  end.

(** [Number.MAX_SAFE_INTEGER]: up to this size every whole number is a
    JavaScript number of its own. *)
Definition MAX_SAFE_INTEGER : Z := 9007199254740991.

(** ToString, as applied by a template literal [`${v}`].  A whole number
    is printed as its decimal numeral, which is what JavaScript prints
    for the numbers up to [MAX_SAFE_INTEGER] in size; larger numbers are
    rounded by JavaScript, and printed with an exponent from [1e21] on, so
    that statements about the digits of a number are made within that
    bound. *)
Definition toString (v : jsval) : string :=
  match v with
  | JUndefined => "undefined"
  | JNull => "null"
  | JBool true => "true"
  | JBool false => "false"
  | JNum n => pretty n
  | JStr s => s
  | JObject _ => "[object Object]"
  end.

(** [a || b] on values. *)
Definition js_or (a b : jsval) : jsval := if truthy a then a else b.

(** [a ?? b]: only [null] and [undefined] fall through (used by the
    specification text, not by the code). *)
Definition js_nullish (a b : jsval) : jsval :=
  match a with
  | JUndefined | JNull => b
  | _ => a
  end.

(** Truthiness of a string. *)
Definition truthy_str (s : string) : bool := negb (s =? "").

(** [s || d] on strings. *)
Definition str_or (s d : string) : string := if truthy_str s then s else d.

(** JavaScript numbers that an integer computation can produce once a
    division is involved. *)
Inductive number :=
| Int (z : Z)
| PosInfinity
| NegInfinity
| NaN.

(** [Math.ceil(a / b)] on integers [a] and [b]. *)
Definition ceil_div (a b : Z) : number :=
  if (b =? 0)%Z then
    (if (0 <? a)%Z then PosInfinity
     else if (a <? 0)%Z then NegInfinity
     else NaN)
  else Int (- ((- a) / b))%Z.

(* ===================================================================== *)
(** * Entity types ([types/index.ts]) *)
(* ===================================================================== *)

(** [type EntityType = 'clients' | 'workers' | 'tasks'] *)
Inductive EntityType := clients | workers | tasks.

(** The string an [EntityType] is at run time. *)
Definition entityName (e : EntityType) : string :=
  match e with
  | clients => "clients"
  | workers => "workers"
  | tasks => "tasks"
  end.

(* ===================================================================== *)
(** * Regular expressions

    The fragment needed for [/^(clients|workers|tasks)-\d+$/]; a pattern
    anchored at both ends is matched against the whole string.  Matching is
    by Brzozowski derivatives. *)
(* ===================================================================== *)

Inductive regex :=
| RVoid
| REps
| RChr (c : ascii)
| RDigit
| RAlt (r1 r2 : regex)
| RSeq (r1 r2 : regex)
| RStar (r : regex).

(** [r+] *)
Definition RPlus (r : regex) : regex := RSeq r (RStar r).

(** A literal word. *)
Fixpoint RLit (s : string) : regex :=
  match s with
  | EmptyString => REps
  | String c s' => RSeq (RChr c) (RLit s')
  end.

(** [\d] is exactly the ten ASCII digits. *)
Definition is_digit (c : ascii) : bool :=
  let n := nat_of_ascii c in (48 <=? n)%nat && (n <=? 57)%nat.

Fixpoint nullable (r : regex) : bool :=
  match r with
  | RVoid => false
  | REps => true
  | RChr _ => false
  | RDigit => false
  | RAlt r1 r2 => nullable r1 || nullable r2
  | RSeq r1 r2 => nullable r1 && nullable r2
  | RStar _ => true
  end.

Fixpoint deriv (c : ascii) (r : regex) : regex :=
  match r with
  | RVoid => RVoid
  | REps => RVoid
  | RChr d => if Ascii.eqb c d then REps else RVoid
  | RDigit => if is_digit c then REps else RVoid
  | RAlt r1 r2 => RAlt (deriv c r1) (deriv c r2)
  | RSeq r1 r2 =>
      if nullable r1
      then RAlt (RSeq (deriv c r1) r2) (deriv c r2)
      else RSeq (deriv c r1) r2
  | RStar r1 => RSeq (deriv c r1) (RStar r1)
  end.

(** [/^r$/.test(s)] *)
Fixpoint regex_test (r : regex) (s : string) : bool :=
  match s with
  | EmptyString => nullable r
  | String c s' => regex_test (deriv c r) s'
  end.

(** The language of a regex, for the correctness of [regex_test]. *)
Fixpoint star_lang (L : string -> Prop) (n : nat) (s : string) : Prop :=
  match n with
  | O => s = ""
  | S n' => exists s1 s2, s = s1 ++ s2 /\ L s1 /\ star_lang L n' s2
  end.

Fixpoint lang (r : regex) (s : string) : Prop :=
  match r with
  | RVoid => False
  | REps => s = ""
  | RChr c => s = String c ""
  | RDigit => exists c, is_digit c = true /\ s = String c ""
  | RAlt r1 r2 => lang r1 s \/ lang r2 s
  | RSeq r1 r2 => exists s1 s2, s = s1 ++ s2 /\ lang r1 s1 /\ lang r2 s2
  | RStar r1 => exists n, star_lang (lang r1) n s
  end.

(** [all_digits s]: every character of [s] is an ASCII digit. *)
Fixpoint all_digits (s : string) : bool :=
  match s with
  | EmptyString => true
  | String c s' => is_digit c && all_digits s'
  end.

(* ===================================================================== *)
(** * [dataService]: the pagination adapter *)
(* ===================================================================== *)

(** [BackendPaginatedResponse<T>['pagination']]; [hasNext] and [hasPrev]
    are never read by the adapter. *)
Module BackendPagination.
Record t := mk { page : Z; limit : Z; total : Z; totalPages : Z }.
End BackendPagination.

(** [PaginatedResponse<T>].  [totalPages] may come out of a division. *)
Module PaginatedResponse.
Record t (T : Type) := mk
  { items : list T; total : Z; page : Z; limit : Z; totalPages : number }.
Arguments mk {T} _ _ _ _ _.
Arguments items {T} _.
Arguments total {T} _.
Arguments page {T} _.
Arguments limit {T} _.
Arguments totalPages {T} _.
End PaginatedResponse.

(** What [response.data] of [GET /data/${entity}] can be: the backend
    envelope (an object with a [success] field), a bare array, or any other
    payload. *)
Inductive ListPayload (T : Type) :=
| Envelope (success : bool) (data : option (list T))
           (pagination : option BackendPagination.t)
| BareArray (arr : list T)
| OtherPayload.
Arguments Envelope {T} _ _ _.
Arguments BareArray {T} _.
Arguments OtherPayload {T}.

(** [o?.f || d] for an integer field [f] of an optional object [o]. *)
Definition field_or {A : Type} (f : A -> Z) (o : option A) (d : Z) : Z :=
  match o with
  | Some a => if (f a =? 0)%Z then d else f a
  | None => d
  end.

(** [dataService.getEntities(entity, page, limit, filters)], from the
    resolved response on.  The request only carries [entity], [page],
    [limit] and the filters in its URL. *)
Definition getEntities {T : Type} (entity : EntityType) (page limit : Z)
    (response_data : ListPayload T) : PaginatedResponse.t T :=
  match response_data with
  | Envelope true data pagination =>
      PaginatedResponse.mk
        (match data with Some d => d | None => [] end)
        (field_or BackendPagination.total pagination 0)
        (field_or BackendPagination.page pagination page)
        (field_or BackendPagination.limit pagination limit)
        (match pagination with
         | Some p =>
             if (BackendPagination.totalPages p =? 0)%Z
             then ceil_div (field_or BackendPagination.total pagination 0) limit
             else Int (BackendPagination.totalPages p)
         | None => ceil_div (field_or BackendPagination.total pagination 0) limit
         end)
  | Envelope false _ _ | OtherPayload =>
      PaginatedResponse.mk [] 0 page limit (Int 1)
  | BareArray arr =>
      PaginatedResponse.mk arr (Z.of_nat (length arr)) page limit (Int 1)
  end.

(* ===================================================================== *)
(** * [dataService]: the validation-error adapter *)
(* ===================================================================== *)

(** A validation error as the backend sends it. *)
Module BackendError.
Record t := mk
  { row : jsval; field : string; message : string;
    severity : jsval; type : jsval }.
End BackendError.

(** The error objects handled by the AI-fix page: the [ValidationError]
    interface of the page, plus the three extra properties the adapter
    sets ([JUndefined] when the property is absent). *)
Module ValidationError.
Record t := mk
  { id : string; field : string; value : jsval; error : string;
    suggested_fix : jsval; originalValidationId : option string;
    severity : jsval; type : jsval; row : jsval }.
End ValidationError.

(** [response.data] of [POST /data/${entity}/validate]. *)
Record ValidatePayload := mkValidatePayload
  { validate_success : bool;
    validate_data : option (option (list BackendError.t)) }.
(** [validate_data = Some errs] is a [data] object whose [errors] property
    is [errs]. *)

(** [`${entity}-${error.row || 'unknown'}`] *)
Definition synthesizedId (entity : EntityType) (row : jsval) : string :=
  entityName entity ++ "-" ++ toString (js_or row (JStr "unknown")).

(** The same template with [??] in place of [||]. *)
Definition nullishId (entity : EntityType) (row : jsval) : string :=
  entityName entity ++ "-" ++ toString (js_nullish row (JStr "unknown")).

Definition toFrontendError (entity : EntityType) (error : BackendError.t)
    : ValidationError.t :=
  ValidationError.mk
    (synthesizedId entity (BackendError.row error))
    (BackendError.field error)
    JNull
    (BackendError.message error)
    JNull
    None
    (BackendError.severity error)
    (BackendError.type error)
    (BackendError.row error).

(** [dataService.getValidationErrors(entity)], from the resolved response. *)
Definition getValidationErrors (entity : EntityType)
    (response_data : ValidatePayload) : list ValidationError.t :=
  match validate_success response_data, validate_data response_data with
  | true, Some (Some errors) => map (toFrontendError entity) errors
  | _, _ => []
  end.

(* ===================================================================== *)
(** * [store/useDataStore.ts] *)
(* ===================================================================== *)

Module Pagination.
Record t := mk { page : Z; limit : Z; total : Z; totalPages : Z }.
End Pagination.

(** [EntityFilters] and [Partial<EntityFilters>] are objects with optional
    keys: finite maps from property names to values. *)
Module DataStore.
Record t (T : Type) := mk
  { currentEntity : EntityType;
    entities : gmap string (list T);
    loading : bool;
    error : option string;
    filters : gmap string jsval;
    pagination : Pagination.t;
    selectedItems : list string }.
Arguments mk {T} _ _ _ _ _ _ _.
Arguments currentEntity {T} _.
Arguments entities {T} _.
Arguments loading {T} _.
Arguments error {T} _.
Arguments filters {T} _.
Arguments pagination {T} _.
Arguments selectedItems {T} _.
End DataStore.

(** Object spread [{...a, ...b}]: the keys of [b] win. *)
Definition spread (a b : gmap string jsval) : gmap string jsval := b ∪ a.

(** [setFilters(filters)]: zustand's [set] merges the two returned slices
    into the state and keeps every other slice. *)
Definition setFilters {T : Type} (new_filters : gmap string jsval)
    (state : DataStore.t T) : DataStore.t T :=
  DataStore.mk
    (DataStore.currentEntity state)
    (DataStore.entities state)
    (DataStore.loading state)
    (DataStore.error state)
    (spread (DataStore.filters state) new_filters)
    (Pagination.mk 1
       (Pagination.limit (DataStore.pagination state))
       (Pagination.total (DataStore.pagination state))
       (Pagination.totalPages (DataStore.pagination state)))
    (DataStore.selectedItems state).

(* ===================================================================== *)
(** * [app/settings/page.tsx]: the priority weights *)
(* ===================================================================== *)

(** JavaScript numbers are IEEE 754 binary64 values: the weights are
    modelled with the bit-exact operations of [SpecFloat] at precision 53
    and maximal exponent 1024. *)
Definition f64 := spec_float.
Definition f64_add : f64 -> f64 -> f64 := SFadd 53 1024.
Definition f64_sub : f64 -> f64 -> f64 := SFsub 53 1024.
Definition f64_div : f64 -> f64 -> f64 := SFdiv 53 1024.
Definition f64_of_Z (z : Z) : f64 := binary_normalize 53 1024 z 0 false.
(** [a > b] *)
Definition f64_gt (a b : f64) : bool := SFltb b a.
(** [a <= b] *)
Definition f64_le (a b : f64) : bool := SFleb a b.

(** [Number.isNaN(a)] and [Number.isFinite(a)] *)
Definition f64_is_nan (x : f64) : bool :=
  match x with
  | S754_nan => true
  | _ => false
  end.

Definition f64_is_finite (x : f64) : bool :=
  match x with
  | S754_zero _ | S754_finite _ _ _ => true
  | _ => false
  end.

(** The literals [1.0], [0.01], [0.4], [0.3], [0.25]. *)
Definition lit_1_0 : f64 := S754_finite false 4503599627370496 (-52).
Definition lit_0_01 : f64 := S754_finite false 5764607523034235 (-59).
Definition lit_0_4 : f64 := S754_finite false 7205759403792794 (-54).
Definition lit_0_3 : f64 := S754_finite false 5404319552844595 (-54).
Definition lit_0_25 : f64 := S754_finite false 4503599627370496 (-54).

Record RulePriorities := mkRulePriorities
  { priorityLevelWeight : f64; fairnessWeight : f64; costWeight : f64 }.

(** [priorities.priorityLevelWeight + priorities.fairnessWeight +
    priorities.costWeight] (left to right). *)
Definition totalWeight (p : RulePriorities) : f64 :=
  f64_add (f64_add (priorityLevelWeight p) (fairnessWeight p)) (costWeight p).

(** [Math.abs(total - 1.0)] *)
Definition deviation (p : RulePriorities) : f64 :=
  SFabs (f64_sub (totalWeight p) lit_1_0).

(** The [disabled] attribute of the "Save Priorities" button. *)
Definition saveDisabled (updating : bool) (p : RulePriorities) : bool :=
  updating || f64_gt (deviation p) lit_0_01.

Definition saveEnabled (updating : bool) (p : RulePriorities) : bool :=
  negb (saveDisabled updating p).

(** The condition under which the "Should equal 1.0" warning is shown. *)
Definition weightWarning (p : RulePriorities) : bool :=
  f64_gt (deviation p) lit_0_01.

(* ===================================================================== *)
(** * Results of awaited calls *)
(* ===================================================================== *)

(** An awaited promise either resolves with a value or rejects with an
    error; a [throw] inside an [async] function rejects its promise. *)
Inductive outcome (E A : Type) :=
| Resolved (a : A)
| Rejected (e : E).
Arguments Resolved {E A} _.
Arguments Rejected {E A} _.

(** What the handlers read of a transport error: [error.response?.status]
    ([None] when there is no response) and [error.message]. *)
Record AxiosError := mkAxiosError
  { response_status : option Z; error_message : string }.

(** [error.response?.status === 400] *)
Definition is_status_400 (error : AxiosError) : bool :=
  match response_status error with
  | Some s => (s =? 400)%Z
  | None => false
  end.

(* ===================================================================== *)
(** * [aiService] and [components/RuleRecommendations.tsx] *)
(* ===================================================================== *)

(** [response.data] of [GET /ai/rule-recommendations]; [R] is
    [RuleRecommendation]. *)
Record RecommendationsPayload (R : Type) := mkRecommendationsPayload
  { rec_success : bool;
    rec_data_recommendations : option (list R);
    rec_recommendations : option (list R) }.
Arguments mkRecommendationsPayload {R} _ _ _.
Arguments rec_success {R} _.
Arguments rec_data_recommendations {R} _.
Arguments rec_recommendations {R} _.

(** [aiService.getRuleRecommendations()]: the [catch] block logs and
    rethrows. *)
Definition getRuleRecommendations {R : Type}
    (http : outcome AxiosError (RecommendationsPayload R))
    : outcome AxiosError (list R) :=
  match http with
  | Resolved response_data =>
      if rec_success response_data then
        Resolved
          (match rec_data_recommendations response_data with
           | Some l => l
           | None =>
               match rec_recommendations response_data with
               | Some l => l
               | None => []
               end
           end)
      else Resolved []
  | Rejected error => Rejected error
  end.

(** The [queryFn] of the [rule-recommendations] query. *)
Definition queryFn {R : Type}
    (http : outcome AxiosError (RecommendationsPayload R))
    : outcome AxiosError (list R) :=
  match getRuleRecommendations http with
  | Resolved result => Resolved result
  | Rejected error =>
      if is_status_400 error then Resolved [] else Rejected error
  end.

(** The [retry] option of the query. *)
Definition retry (failureCount : nat) (error : AxiosError) : bool :=
  if is_status_400 error then false else (failureCount <? 3)%nat.

(** The number of retries a policy grants to a query that keeps failing
    with [error]: the query library asks the policy after each failure,
    passing the number of retries made so far, and gives up at the first
    refusal.  [fuel] bounds the search. *)
Fixpoint grantedRetries (policy : nat -> AxiosError -> bool)
    (fuel failureCount : nat) (error : AxiosError) : nat :=
  match fuel with
  | O => O
  | S fuel' =>
      if policy failureCount error
      then S (grantedRetries policy fuel' (S failureCount) error)
      else O
  end.

(* ===================================================================== *)
(** * [uploadService] *)
(* ===================================================================== *)

Inductive UploadState := pending | processing | completed | failed.

(** [UploadStatus] *)
Module UploadStatus.
Record t := mk
  { filename : string; status : UploadState; progress : Z;
    message : option string }.
End UploadStatus.

(** One value of the backend's [entities] map, as far as it is read. *)
Module EntityInfo.
Record t := mk
  { fileName : option string; hasData : bool; recordCount : jsval }.
End EntityInfo.

(** [response.data] of [GET /upload/status]: [status_data = Some ents] is
    a [data] object whose [entities] property is [ents]; an object's
    entries are listed in enumeration order. *)
Record StatusPayload := mkStatusPayload
  { status_success : bool;
    status_data : option (option (list (string * EntityInfo.t))) }.

(** [entityInfo.fileName === filename] *)
Definition fileName_is (info : EntityInfo.t) (filename : string) : bool :=
  match EntityInfo.fileName info with
  | Some f => f =? filename
  | None => false
  end.

(** The [for ... of Object.entries(...)] loop: the first entry that passes
    the test decides. *)
Fixpoint scanEntities (filename : string)
    (entries : list (string * EntityInfo.t)) : option UploadStatus.t :=
  match entries with
  | [] => None
  | (_, entityInfo) :: rest =>
      if fileName_is entityInfo filename || EntityInfo.hasData entityInfo
      then Some
        (if EntityInfo.hasData entityInfo
         then UploadStatus.mk filename completed 100
                (Some (toString (EntityInfo.recordCount entityInfo)
                       ++ " records processed"))
         else UploadStatus.mk filename failed 0 (Some "Processing failed"))
      else scanEntities filename rest
  end.

(** [uploadService.getUploadStatus(filename)], from the resolved response.
    Reading [entities] of a missing [data] throws a [TypeError]. *)
Definition getUploadStatus (filename : string) (response_data : StatusPayload)
    : outcome string UploadStatus.t :=
  let default_status :=
    UploadStatus.mk filename completed 100 (Some "File processed") in
  if status_success response_data then
    match status_data response_data with
    | None => Rejected "TypeError"
    | Some entities =>
        match scanEntities filename
                (match entities with Some l => l | None => [] end) with
        | Some found => Resolved found
        | None => Resolved default_status
        end
    end
  else Resolved default_status.

(* ===================================================================== *)
(** * [app/ai/fix/page.tsx] *)
(* ===================================================================== *)

(** A fix suggested by the AI service. *)
Module AIFix.
Record t := mk
  { rowId : string; field : string; currentValue : jsval;
    suggestedValue : jsval; reason : option string; confidence : jsval;
    originalValidationId : option string }.
End AIFix.

(** The HTTP requests the page sends through its two mutations. *)
Inductive Method := POST | PATCH.

Inductive Body :=
| FixErrorsBody (entity : EntityType) (errors : list ValidationError.t)
| PatchBody (data : list (string * jsval)).

Record Request := mkRequest
  { req_method : Method; req_url : string; req_body : Body }.

(** [aiService.fixErrors(entity, errors)] *)
Definition fixErrors (entity : EntityType) (errors : list ValidationError.t)
    : Request :=
  mkRequest POST "/ai/fix-errors" (FixErrorsBody entity errors).

(** [dataService.updateEntity(entity, id, data)] *)
Definition updateEntity (entity : EntityType) (id : string)
    (data : list (string * jsval)) : Request :=
  mkRequest PATCH ("/data/" ++ entityName entity ++ "/" ++ id) (PatchBody data).

(** What a handler does besides updating the component state. *)
Inductive Effect :=
| ToastError (msg : string)
| ToastSuccess (msg : string)
| ToastInfo (msg : string)
| Send (request : Request).

Definition is_request (e : Effect) : bool :=
  match e with
  | Send _ => true
  | _ => false
  end.

(** The state of [AIFixPage]: its five [useState] cells and the data of
    the [validation-errors] query ([None] while it is [undefined]). *)
Module Page.
Record t := mk
  { selectedEntity : EntityType;
    errors : list ValidationError.t;
    fixedItems : gset string;
    isGeneratingFixes : bool;
    validationToFixIdMap : gmap string string;
    validationErrors : option (list ValidationError.t) }.
End Page.

(** [const maxErrors = 20] *)
Definition maxErrors : nat := 20.

(** [handleGenerateFixes()].  [mutate] runs [onMutate], which sets
    [isGeneratingFixes], and then the mutation function. *)
Definition handleGenerateFixes (st : Page.t) : Page.t * list Effect :=
  match Page.validationErrors st with
  | None | Some [] => (st, [ToastError "No validation errors found"])
  | Some validationErrors =>
      if Page.isGeneratingFixes st then
        (st, [ToastError "Already generating fixes, please wait..."])
      else
        let errorsToProcess := firstn maxErrors validationErrors in
        (Page.mk (Page.selectedEntity st) (Page.errors st)
           (Page.fixedItems st) true (Page.validationToFixIdMap st)
           (Page.validationErrors st),
         List.app
           (if (maxErrors <? length validationErrors)%nat
            then [ToastInfo ("Processing first " ++ pretty maxErrors
                             ++ " errors out of "
                             ++ pretty (length validationErrors) ++ " total")]
            else [])
           [Send (fixErrors (Page.selectedEntity st) errorsToProcess)])
  end.

(** The two [find] calls of [onSuccess]: by [originalValidationId] first,
    by field name only when that gave nothing. *)
Definition findById (originals : list ValidationError.t) (fx : AIFix.t)
    : option ValidationError.t :=
  match AIFix.originalValidationId fx with
  | Some ovid =>
      if truthy_str ovid
      then List.find (fun originalError =>
                        ValidationError.id originalError =? ovid) originals
      else None
  | None => None
  end.

Definition findByField (originals : list ValidationError.t) (fx : AIFix.t)
    : option ValidationError.t :=
  List.find (fun originalError =>
               ValidationError.field originalError =? AIFix.field fx)
            originals.

Definition matchingOriginalError (originals : list ValidationError.t)
    (fx : AIFix.t) : option ValidationError.t :=
  match findById originals fx with
  | Some e => Some e
  | None => findByField originals fx
  end.

(** The object returned by the [map] callback for one fix. *)
Definition transformFix (fx : AIFix.t)
    (matching : option ValidationError.t) : ValidationError.t :=
  ValidationError.mk
    (AIFix.rowId fx)
    (AIFix.field fx)
    (AIFix.currentValue fx)
    (match AIFix.reason fx with
     | Some r => str_or r "AI detected issue"
     | None => "AI detected issue"
     end)
    (AIFix.suggestedValue fx)
    (ValidationError.id <$> matching)
    JUndefined JUndefined JUndefined.

(** One iteration of the [map] callback: it may write to [newMapping] and
    it yields one transformed fix. *)
Definition reconcileStep (originals : list ValidationError.t)
    (acc : gmap string string * list ValidationError.t) (fx : AIFix.t)
    : gmap string string * list ValidationError.t :=
  let matching := matchingOriginalError originals fx in
  (match matching with
   | Some e => <[ValidationError.id e := AIFix.rowId fx]> (fst acc)
   | None => fst acc
   end,
   List.app (snd acc) [transformFix fx matching]).

Definition reconcile (originals : list ValidationError.t)
    (fixes : list AIFix.t) : gmap string string * list ValidationError.t :=
  fold_left (reconcileStep originals) fixes (∅, []).

(** The fix that decides the entry of key [k]: the last one, in the order
    of the response, whose matching original error has ID [k]. *)
Definition matches_key (originals : list ValidationError.t) (k : string)
    (fx : AIFix.t) : bool :=
  match matchingOriginalError originals fx with
  | Some e => ValidationError.id e =? k
  | None => false
  end.

Definition lastFixFor (originals : list ValidationError.t) (k : string)
    (fixes : list AIFix.t) : option AIFix.t :=
  List.find (matches_key originals k) (rev fixes).

(** [fixErrorsMutation.onSuccess(data, variables)]; [data_fixes] is
    [data.fixes] and [originals] is [variables.errors]. *)
Definition fixErrors_onSuccess (st : Page.t)
    (data_fixes : option (list AIFix.t))
    (originals : list ValidationError.t) : Page.t * list Effect :=
  let result :=
    reconcile originals (match data_fixes with Some l => l | None => [] end) in
  (Page.mk (Page.selectedEntity st) (snd result) (Page.fixedItems st)
     false (fst result) (Page.validationErrors st),
   [ToastSuccess ("AI fixes generated successfully ("
                  ++ pretty (length (snd result)) ++ " suggestions)")]).

(** [/^(clients|workers|tasks)-\d+$/] *)
Definition synthesizedIdPattern : regex :=
  RSeq (RAlt (RLit "clients") (RAlt (RLit "workers") (RLit "tasks")))
       (RSeq (RChr "-") (RPlus RDigit)).

(** [validationToFixIdMap.get(error.id)], when it is a usable (truthy) ID. *)
Definition mappedId (m : gmap string string) (error : ValidationError.t)
    : option string :=
  match m !! ValidationError.id error with
  | Some mapped => if truthy_str mapped then Some mapped else None
  | None => None
  end.

(** [validationToFixIdMap.get(error.id) || error.id] *)
Definition actualRecordId (m : gmap string string)
    (error : ValidationError.t) : string :=
  match mappedId m error with
  | Some mapped => mapped
  | None => ValidationError.id error
  end.

(** [handleApplyFix(error)] *)
Definition handleApplyFix (st : Page.t) (error : ValidationError.t)
    : Page.t * list Effect :=
  if negb (truthy (ValidationError.suggested_fix error)) then
    (st, [ToastError "No suggested fix available"])
  else
    let actualId := actualRecordId (Page.validationToFixIdMap st) error in
    if negb (truthy_str actualId)
       || ((actualId =? ValidationError.id error)
           && regex_test synthesizedIdPattern (ValidationError.id error))
    then (st, [ToastError ("Cannot apply fix: Invalid record ID " ++ actualId)])
    else
      (st, [Send (updateEntity (Page.selectedEntity st) actualId
                    [(ValidationError.field error,
                      ValidationError.suggested_fix error)])]).

(* ===================================================================== *)
(** * [store/useDataStore.ts]: the other actions *)
(* ===================================================================== *)

(** A synchronous call either returns or throws (here always a
    [TypeError] raised by reading through [undefined]). *)
Inductive completion (A : Type) :=
| Normal (a : A)
| Throw (error : string).
Arguments Normal {A} _.
Arguments Throw {A} _.

(** The records kept by the store are plain objects. *)
Abbreviation Item := (gmap string jsval).

(** [item.id === id], for a string [id]. *)
Definition has_id (id : string) (item : Item) : bool :=
  match item !! "id" with
  | Some (JStr s) => s =? id
  | _ => false
  end.

(** The initial state of the store. *)
Definition initialDataStore : DataStore.t Item :=
  DataStore.mk clients
    (<["clients" := []]> (<["workers" := []]> (<["tasks" := []]> ∅)))
    false None ∅ (Pagination.mk 1 50 0 0) [].

Definition with_entities {T : Type} (entities : gmap string (list T))
    (state : DataStore.t T) : DataStore.t T :=
  DataStore.mk (DataStore.currentEntity state) entities
    (DataStore.loading state) (DataStore.error state)
    (DataStore.filters state) (DataStore.pagination state)
    (DataStore.selectedItems state).

(** [setCurrentEntity(entity)] *)
Definition setCurrentEntity {T : Type} (entity : EntityType)
    (state : DataStore.t T) : DataStore.t T :=
  DataStore.mk entity (DataStore.entities state)
    (DataStore.loading state) (DataStore.error state)
    (DataStore.filters state) (DataStore.pagination state) [].

(** [setEntities(entity, data)] *)
Definition setEntities {T : Type} (entity : EntityType) (data : list T)
    (state : DataStore.t T) : DataStore.t T :=
  with_entities (<[entityName entity := data]> (DataStore.entities state)) state.

(** [setLoading(loading)], [setError(error)], [setSelectedItems(items)] *)
Definition setLoading {T : Type} (loading : bool)
    (state : DataStore.t T) : DataStore.t T :=
  DataStore.mk (DataStore.currentEntity state) (DataStore.entities state)
    loading (DataStore.error state)
    (DataStore.filters state) (DataStore.pagination state)
    (DataStore.selectedItems state).

Definition setError {T : Type} (error : option string)
    (state : DataStore.t T) : DataStore.t T :=
  DataStore.mk (DataStore.currentEntity state) (DataStore.entities state)
    (DataStore.loading state) error
    (DataStore.filters state) (DataStore.pagination state)
    (DataStore.selectedItems state).

Definition setSelectedItems {T : Type} (items : list string)
    (state : DataStore.t T) : DataStore.t T :=
  DataStore.mk (DataStore.currentEntity state) (DataStore.entities state)
    (DataStore.loading state) (DataStore.error state)
    (DataStore.filters state) (DataStore.pagination state) items.

(** [Partial<DataStore['pagination']>]: each key is present or not. *)
Module PartialPagination.
Record t := mk
  { page : option Z; limit : option Z; total : option Z;
    totalPages : option Z }.
End PartialPagination.

(** [setPagination(pagination)]: [{...state.pagination, ...pagination}] *)
Definition setPagination {T : Type} (update : PartialPagination.t)
    (state : DataStore.t T) : DataStore.t T :=
  let old := DataStore.pagination state in
  DataStore.mk (DataStore.currentEntity state) (DataStore.entities state)
    (DataStore.loading state) (DataStore.error state)
    (DataStore.filters state)
    (Pagination.mk
       (default (Pagination.page old) (PartialPagination.page update))
       (default (Pagination.limit old) (PartialPagination.limit update))
       (default (Pagination.total old) (PartialPagination.total update))
       (default (Pagination.totalPages old)
          (PartialPagination.totalPages update)))
    (DataStore.selectedItems state).

(** [addEntity(entity, data)]: spreading a missing list throws. *)
Definition addEntity (entity : EntityType) (data : Item)
    (state : DataStore.t Item) : completion (DataStore.t Item) :=
  match DataStore.entities state !! entityName entity with
  | Some items =>
      Normal (with_entities
                (<[entityName entity := data :: items]>
                   (DataStore.entities state)) state)
  | None => Throw "TypeError"
  end.

(** [updateEntity(entity, id, data)] *)
Definition updateEntityInStore (entity : EntityType) (id : string)
    (data : Item) (state : DataStore.t Item) : completion (DataStore.t Item) :=
  match DataStore.entities state !! entityName entity with
  | Some items =>
      Normal (with_entities
                (<[entityName entity :=
                     map (fun item =>
                            if has_id id item then spread item data else item)
                         items]>
                   (DataStore.entities state)) state)
  | None => Throw "TypeError"
  end.

(** [removeEntity(entity, id)] *)
Definition removeEntity (entity : EntityType) (id : string)
    (state : DataStore.t Item) : completion (DataStore.t Item) :=
  match DataStore.entities state !! entityName entity with
  | Some items =>
      Normal (with_entities
                (<[entityName entity :=
                     List.filter (fun item => negb (has_id id item)) items]>
                   (DataStore.entities state)) state)
  | None => Throw "TypeError"
  end.

(** [clearFilters()] *)
Definition clearFilters {T : Type} (state : DataStore.t T) : DataStore.t T :=
  DataStore.mk (DataStore.currentEntity state) (DataStore.entities state)
    (DataStore.loading state) (DataStore.error state)
    ∅ (Pagination.mk 1 50 0 0) (DataStore.selectedItems state).

(** The actions of the store, and a run of them from a state: a throw
    aborts the run. *)
Inductive DataAction :=
| ASetCurrentEntity (entity : EntityType)
| ASetEntities (entity : EntityType) (data : list Item)
| ASetLoading (loading : bool)
| ASetError (error : option string)
| ASetFilters (filters : gmap string jsval)
| ASetPagination (update : PartialPagination.t)
| ASetSelectedItems (items : list string)
| AAddEntity (entity : EntityType) (data : Item)
| AUpdateEntity (entity : EntityType) (id : string) (data : Item)
| ARemoveEntity (entity : EntityType) (id : string)
| AClearFilters.

Definition dispatch (action : DataAction) (state : DataStore.t Item)
    : completion (DataStore.t Item) :=
  match action with
  | ASetCurrentEntity entity => Normal (setCurrentEntity entity state)
  | ASetEntities entity data => Normal (setEntities entity data state)
  | ASetLoading loading => Normal (setLoading loading state)
  | ASetError error => Normal (setError error state)
  | ASetFilters filters => Normal (setFilters filters state)
  | ASetPagination update => Normal (setPagination update state)
  | ASetSelectedItems items => Normal (setSelectedItems items state)
  | AAddEntity entity data => addEntity entity data state
  | AUpdateEntity entity id data => updateEntityInStore entity id data state
  | ARemoveEntity entity id => removeEntity entity id state
  | AClearFilters => Normal (clearFilters state)
  end.

Fixpoint run (actions : list DataAction) (state : DataStore.t Item)
    : completion (DataStore.t Item) :=
  match actions with
  | [] => Normal state
  | action :: rest =>
      match dispatch action state with
      | Normal state' => run rest state'
      | Throw error => Throw error
      end
  end.

(** The three entity lists exist. *)
Definition lists_present {T : Type} (state : DataStore.t T) : Prop :=
  forall entity : EntityType,
    is_Some (DataStore.entities state !! entityName entity).

(* ===================================================================== *)
(** * [app/data/[entity]/page.tsx]: the pager *)
(* ===================================================================== *)

(** [n > 1] and [page === n] for a page count [n]. *)
Definition number_gt_1 (n : number) : bool :=
  match n with
  | Int z => (1 <? z)%Z
  | PosInfinity => true
  | NegInfinity | NaN => false
  end.

Definition number_is (page : Z) (n : number) : bool :=
  match n with
  | Int z => (page =? z)%Z
  | _ => false
  end.

(** [entityData && entityData.totalPages > 1]: whether the pager is
    rendered. *)
Definition pagerVisible {T : Type}
    (entityData : option (PaginatedResponse.t T)) : bool :=
  match entityData with
  | Some data => number_gt_1 (PaginatedResponse.totalPages data)
  | None => false
  end.

(** The [disabled] attributes of the two buttons. *)
Definition previousDisabled (pagination : Pagination.t) : bool :=
  (Pagination.page pagination =? 1)%Z.

Definition nextDisabled {T : Type} (pagination : Pagination.t)
    (entityData : PaginatedResponse.t T) : bool :=
  number_is (Pagination.page pagination) (PaginatedResponse.totalPages entityData).

(** The click handlers of the two buttons: a disabled button fires
    nothing.  The buttons exist only while the pager is rendered, see
    [renderPager] below. *)
Definition clickPrevious {T : Type} (state : DataStore.t T) : DataStore.t T :=
  if previousDisabled (DataStore.pagination state) then state
  else setPagination
         (PartialPagination.mk
            (Some (Pagination.page (DataStore.pagination state) - 1)%Z)
            None None None) state.

Definition clickNext {T U : Type} (entityData : PaginatedResponse.t U)
    (state : DataStore.t T) : DataStore.t T :=
  if nextDisabled (DataStore.pagination state) entityData then state
  else setPagination
         (PartialPagination.mk
            (Some (Pagination.page (DataStore.pagination state) + 1)%Z)
            None None None) state.

(** The pager as the page renders it: nothing unless
    [entityData && entityData.totalPages > 1]; otherwise the two buttons,
    each with its [disabled] attribute and the store its click leaves. *)
Module Pager.
Record t (T : Type) := mk
  { previousIsDisabled : bool; afterPrevious : DataStore.t T;
    nextIsDisabled : bool; afterNext : DataStore.t T }.
Arguments mk {T} _ _ _ _.
Arguments previousIsDisabled {T} _.
Arguments afterPrevious {T} _.
Arguments nextIsDisabled {T} _.
Arguments afterNext {T} _.
End Pager.

Definition renderPager {T U : Type}
    (entityData : option (PaginatedResponse.t U)) (state : DataStore.t T)
    : option (Pager.t T) :=
  match entityData with
  | Some data =>
      if pagerVisible entityData
      then Some (Pager.mk (previousDisabled (DataStore.pagination state))
                   (clickPrevious state)
                   (nextDisabled (DataStore.pagination state) data)
                   (clickNext data state))
      else None
  | None => None
  end.

(** [handleSearch]: [setPagination({ page: 1 })] *)
Definition handleSearch {T : Type} (state : DataStore.t T) : DataStore.t T :=
  setPagination (PartialPagination.mk (Some 1%Z) None None None) state.

(** "Showing [from] to [to] of [total] results". *)
Definition showingFrom (pagination : Pagination.t) : Z :=
  ((Pagination.page pagination - 1) * Pagination.limit pagination + 1)%Z.

Definition showingTo {T : Type} (pagination : Pagination.t)
    (entityData : PaginatedResponse.t T) : Z :=
  Z.min (Pagination.page pagination * Pagination.limit pagination)
        (PaginatedResponse.total entityData).

(* ===================================================================== *)
(** * [app/ai/fix/page.tsx]: the other handlers *)
(* ===================================================================== *)

(** [queryClient.invalidateQueries({ queryKey })] *)
Inductive CacheEffect :=
| InvalidateQueries (queryKey : list string).


(** [fixErrorsMutation.onError(error)]; [response_message] is
    [error.response?.data?.message]. *)
Definition fixErrors_onError (st : Page.t) (response_message : option string)
    : Page.t * list Effect :=
  (Page.mk (Page.selectedEntity st) (Page.errors st) (Page.fixedItems st)
     false (Page.validationToFixIdMap st) (Page.validationErrors st),
   [ToastError (match response_message with
                | Some m => str_or m "Failed to generate fixes"
                | None => "Failed to generate fixes"
                end)]).



(** [applyFixMutation.onError(error, variables)]: the toast it shows. *)
Definition applyFix_onError (status : option Z)
    (response_message : option string) (id : string) : Effect :=
  ToastError
    (match status with
     | Some 404%Z =>
         "Record not found: " ++ id ++ ". This might be an ID mapping issue."
     | _ =>
         match response_message with
         | Some m => str_or m "Failed to apply fix"
         | None => "Failed to apply fix"
         end
     end).

(* ===================================================================== *)
(** * [uploadService]: the listings and the upload itself *)
(* ===================================================================== *)

(** [UploadFile] *)
Module UploadFile.
Record t := mk
  { filename : string; originalName : string; size : Z;
    uploadedAt : string; status : UploadState }.
End UploadFile.

(** One value of the [entities] map with the [lastUpdated] property that
    the listings read besides the three of [EntityInfo.t]. *)
Module EntityRecord.
Record t := mk { info : EntityInfo.t; lastUpdated : option string }.
End EntityRecord.

(** [response.data] of [GET /upload/status], as the listings read it. *)
Record FullStatusPayload := mkFullStatusPayload
  { full_success : bool;
    full_data : option (option (list (string * EntityRecord.t))) }.

(** The same payload, as [getUploadStatus] reads it. *)
Definition asStatusPayload (payload : FullStatusPayload) : StatusPayload :=
  mkStatusPayload (full_success payload)
    (option_map (option_map (map (fun entry : string * EntityRecord.t =>
                                    (fst entry, EntityRecord.info (snd entry)))))
       (full_data payload)).

(** [info.hasData && info.fileName], and the file name when it holds. *)
Definition listedName (info : EntityInfo.t) : option string :=
  match EntityInfo.fileName info with
  | Some name =>
      if EntityInfo.hasData info && truthy_str name then Some name else None
  | None => None
  end.

(** The [forEach] loops of the two listings. *)
Definition collectFiles (now : string)
    (entries : list (string * EntityRecord.t)) : list UploadFile.t :=
  omap (fun entry : string * EntityRecord.t =>
          match listedName (EntityRecord.info (snd entry)) with
          | Some name =>
              Some (UploadFile.mk name name 0
                      (match EntityRecord.lastUpdated (snd entry) with
                       | Some t => str_or t now
                       | None => now
                       end)
                      completed)
          | None => None
          end) entries.

Definition collectStatuses
    (entries : list (string * EntityRecord.t)) : list UploadStatus.t :=
  omap (fun entry : string * EntityRecord.t =>
          match listedName (EntityRecord.info (snd entry)) with
          | Some name =>
              Some (UploadStatus.mk name completed 100
                      (Some (toString
                               (EntityInfo.recordCount
                                  (EntityRecord.info (snd entry)))
                             ++ " records processed")))
          | None => None
          end) entries.

(** [uploadService.getUploadedFiles()]; [now] is
    [new Date().toISOString()]. *)
Definition getUploadedFiles (now : string) (payload : FullStatusPayload)
    : outcome string (list UploadFile.t) :=
  if full_success payload then
    match full_data payload with
    | None => Rejected "TypeError"
    | Some entities =>
        Resolved (collectFiles now
                    (match entities with Some l => l | None => [] end))
    end
  else Resolved [].

(** [uploadService.getAllUploadStatuses()] *)
Definition getAllUploadStatuses (payload : FullStatusPayload)
    : outcome string (list UploadStatus.t) :=
  if full_success payload then
    match full_data payload with
    | None => Rejected "TypeError"
    | Some entities =>
        Resolved (collectStatuses
                    (match entities with Some l => l | None => [] end))
    end
  else Resolved [].

(** [response.data] of [POST /upload]. *)
Module FileInfo.
Record t := mk
  { entity : string; originalName : option string; size : option Z;
    status : option string }.
End FileInfo.

Module ProcessingInfo.
Record t := mk { filename : option string; processed : bool }.
End ProcessingInfo.

(** The [data] object of the response: its two optional properties. *)
Record UploadData := mkUploadData
  { data_files : option (list FileInfo.t);
    data_processed : option (gmap string ProcessingInfo.t) }.

Record UploadPayload := mkUploadPayload
  { upload_success : bool;
    upload_data : option UploadData;
    upload_message : option string }.

(** The [File] handed to the dropzone. *)
Record BrowserFile := mkBrowserFile { file_name : string; file_size : Z }.

Definition opt_str_or (o : option string) (d : string) : string :=
  match o with
  | Some s => str_or s d
  | None => d
  end.

(** [uploadData.files?.find(f => f.entity === entityType)] and
    [uploadData.processed?.[entityType]] *)
Definition findFileInfo (entityType : EntityType) (uploadData : UploadData)
    : option FileInfo.t :=
  match data_files uploadData with
  | Some files =>
      List.find (fun f => FileInfo.entity f =? entityName entityType) files
  | None => None
  end.

Definition findProcessingInfo (entityType : EntityType)
    (uploadData : UploadData) : option ProcessingInfo.t :=
  match data_processed uploadData with
  | Some processed => processed !! entityName entityType
  | None => None
  end.

(** The [status] of the returned file. *)
Definition uploadedStatus (fileInfo : option FileInfo.t)
    (processingInfo : option ProcessingInfo.t) : UploadState :=
  if match fileInfo ≫= FileInfo.status with
     | Some s => s =? "processed"
     | None => false
     end
     || match processingInfo with
        | Some p => ProcessingInfo.processed p
        | None => false
        end
  then completed else failed.

(** [uploadService.uploadFile(file, entityType)], from the resolved
    response; [now] is [new Date().toISOString()].  Whatever is thrown in
    the [try] block is rethrown by the [catch] block. *)
Definition uploadFile (now : string) (file : BrowserFile)
    (entityType : EntityType) (response_data : UploadPayload)
    : outcome string UploadFile.t :=
  let failure :=
    Rejected (opt_str_or (upload_message response_data) "Upload failed") in
  if upload_success response_data then
    match upload_data response_data with
    | None => Rejected "TypeError"
    | Some uploadData =>
        let fileInfo := findFileInfo entityType uploadData in
        let processingInfo := findProcessingInfo entityType uploadData in
        match fileInfo, processingInfo with
        | None, None => failure
        | _, _ =>
            let name :=
              opt_str_or (fileInfo ≫= FileInfo.originalName)
                (opt_str_or (processingInfo ≫= ProcessingInfo.filename)
                   (file_name file)) in
            Resolved
              (UploadFile.mk name name
                 (match fileInfo ≫= FileInfo.size with
                  | Some z => if (z =? 0)%Z then file_size file else z
                  | None => file_size file
                  end)
                 now
                 (uploadedStatus fileInfo processingInfo))
        end
    end
  else failure.

(* ===================================================================== *)
(** * [store/useUploadStore.ts] and the handlers of the upload page *)
(* ===================================================================== *)

Module UploadStore.
Record t := mk
  { files : list UploadFile.t;
    uploadProgress : gmap string Z;
    uploadStatuses : gmap string UploadStatus.t;
    isUploading : bool }.
End UploadStore.

Definition initialUploadStore : UploadStore.t :=
  UploadStore.mk [] ∅ ∅ false.

(** [Object.fromEntries(Object.entries(record).filter(([key]) =>
    key !== filename))] *)
Definition withoutKey {A : Type} (filename : string) (record : gmap string A)
    : gmap string A :=
  list_to_map
    (List.filter (fun entry : string * A => negb (fst entry =? filename))
                 (map_to_list record)).

Definition setFiles (files : list UploadFile.t) (state : UploadStore.t)
    : UploadStore.t :=
  UploadStore.mk files (UploadStore.uploadProgress state)
    (UploadStore.uploadStatuses state) (UploadStore.isUploading state).

Definition addFile (file : UploadFile.t) (state : UploadStore.t)
    : UploadStore.t :=
  UploadStore.mk (List.app (UploadStore.files state) [file])
    (UploadStore.uploadProgress state)
    (UploadStore.uploadStatuses state) (UploadStore.isUploading state).

Definition removeFile (filename : string) (state : UploadStore.t)
    : UploadStore.t :=
  UploadStore.mk
    (List.filter (fun f => negb (UploadFile.filename f =? filename))
                 (UploadStore.files state))
    (withoutKey filename (UploadStore.uploadProgress state))
    (withoutKey filename (UploadStore.uploadStatuses state))
    (UploadStore.isUploading state).

Definition setUploadProgress (filename : string) (progress : Z)
    (state : UploadStore.t) : UploadStore.t :=
  UploadStore.mk (UploadStore.files state)
    (<[filename := progress]> (UploadStore.uploadProgress state))
    (UploadStore.uploadStatuses state) (UploadStore.isUploading state).

Definition setUploadStatus (filename : string) (status : UploadStatus.t)
    (state : UploadStore.t) : UploadStore.t :=
  UploadStore.mk (UploadStore.files state)
    (UploadStore.uploadProgress state)
    (<[filename := status]> (UploadStore.uploadStatuses state))
    (UploadStore.isUploading state).

Definition setIsUploading (isUploading : bool) (state : UploadStore.t)
    : UploadStore.t :=
  UploadStore.mk (UploadStore.files state)
    (UploadStore.uploadProgress state)
    (UploadStore.uploadStatuses state) isUploading.

Definition clearUploads (state : UploadStore.t) : UploadStore.t :=
  initialUploadStore.

(** [uploadMutation]'s [onSuccess] and [onError], and [deleteMutation]'s
    [onSuccess], of the upload page. *)
Definition upload_onSuccess (data : UploadFile.t) (entityType : EntityType)
    (state : UploadStore.t) : UploadStore.t * list Effect * list CacheEffect :=
  (addFile data state,
   [ToastSuccess (entityName entityType ++ " file uploaded successfully!")],
   [InvalidateQueries ["uploaded-files"];
    InvalidateQueries ["entities"; entityName entityType];
    InvalidateQueries ["entity-stats"; entityName entityType];
    InvalidateQueries ["entity-stats"]]).

Definition upload_onError (response_message : option string) : Effect :=
  ToastError (opt_str_or response_message "Upload failed").

Definition delete_onSuccess (filename : string) (state : UploadStore.t)
    : UploadStore.t * list Effect :=
  (removeFile filename state, [ToastSuccess "File deleted successfully"]).

(** What the handlers read of the error a rejected [api.post] carries
    (a non-2xx answer, or no answer at all):
    [error.response?.data?.message], [error.response?.data?.error], both
    strings when present, and [error.message]. *)
Record TransportError := mkTransportError
  { response_data_message : option string;
    response_data_error : option string;
    transport_message : string }.

(** [url.includes(path)] on strings. *)
Fixpoint str_includes (path url : string) : bool :=
  String.prefix path url
  || match url with
     | EmptyString => false
     | String _ rest => str_includes path rest
     end.

(** [services/api.ts], [responseErrorInterceptor]: the toast it shows
    before it rejects with the same error; [url] is [error.config?.url]. *)
Definition skipToast (url : string) : bool :=
  existsb (fun path => str_includes path url)
          ["/api/upload/status"; "/api/data/"; "/ai/"].

Definition responseErrorInterceptor (url : string) (error : TransportError)
    : list Effect :=
  let message :=
    opt_str_or (response_data_message error)
      (opt_str_or (response_data_error error)
         (str_or (transport_message error) "An error occurred")) in
  if skipToast url then [] else [ToastError message].

(** One upload, from the outcome of [api.post('/upload', ...)] to the
    store: the interceptor, the mutation function and the callback for its
    outcome.  A rejection passes through the interceptor, is rethrown by
    the [catch] block of [uploadFile] and reaches [onError] with its
    [response].  An [Error] thrown by [uploadFile] itself has no
    [response], so that [onError] falls back to its own text. *)
Definition settleUpload (now : string) (file : BrowserFile)
    (entityType : EntityType) (answer : outcome TransportError UploadPayload)
    (state : UploadStore.t) : UploadStore.t * list Effect :=
  match answer with
  | Resolved response_data =>
      match uploadFile now file entityType response_data with
      | Resolved data =>
          (fst (fst (upload_onSuccess data entityType state)),
           snd (fst (upload_onSuccess data entityType state)))
      | Rejected _ => (state, [upload_onError None])
      end
  | Rejected error =>
      (state,
       List.app (responseErrorInterceptor "/upload" error)
                [upload_onError (response_data_message error)])
  end.

(* ===================================================================== *)
(** * [components/RuleRecommendations.tsx]: delays and ignored entries *)
(* ===================================================================== *)

(** [retryDelay: (attemptIndex) => Math.min(1000 * 2 ** attemptIndex,
    30000)], in milliseconds. *)
Definition retryDelay (attemptIndex : nat) : Z :=
  Z.min (1000 * 2 ^ Z.of_nat attemptIndex) 30000.

(** [`${recommendation.type}-${index}`] *)
Definition recommendationId (type : string) (index : nat) : string :=
  type ++ "-" ++ pretty index.

(** [handleIgnoreRule(recommendation, index)]: the new set of ignored
    IDs and the toast. *)
Definition handleIgnoreRule (type : string) (index : nat)
    (ignoredRecommendations : gset string) : gset string * Effect :=
  ({[recommendationId type index]} ∪ ignoredRecommendations,
   ToastSuccess "Recommendation ignored").

(** [RuleRecommendation]; [suggestedRule] is an opaque object here. *)
Module Recommendation.
Record t := mk
  { type : string; priority : string; reason : string;
    suggestedRule : jsval; expectedBenefit : string; confidence : jsval }.
End Recommendation.

(** [recommendations.filter((_, index) => !ignoredRecommendations.has(
    `${recommendations[index].type}-${index}`))], each kept recommendation
    paired with the index it has in [recommendations]; the first entry of
    the list has index [start]. *)
Fixpoint visibleFrom (start : nat) (recommendations : list Recommendation.t)
    (ignoredRecommendations : gset string)
    : list (nat * Recommendation.t) :=
  match recommendations with
  | [] => []
  | r :: rest =>
      if bool_decide (recommendationId (Recommendation.type r) start
                      ∈ ignoredRecommendations)
      then visibleFrom (S start) rest ignoredRecommendations
      else (start, r) :: visibleFrom (S start) rest ignoredRecommendations
  end.

Definition visibleRecommendations (recommendations : list Recommendation.t)
    (ignoredRecommendations : gset string)
    : list (nat * Recommendation.t) :=
  visibleFrom 0 recommendations ignoredRecommendations.

(* ===================================================================== *)
(** * The rule builders *)
(* ===================================================================== *)

(** [array.join(separator)] on an array of strings. *)
Fixpoint join (separator : string) (l : list string) : string :=
  match l with
  | [] => ""
  | [x] => x
  | x :: rest => x ++ separator ++ join separator rest
  end.

(** [prev.includes(x)] *)
Definition includes (x : string) (l : list string) : bool :=
  existsb (fun y => y =? x) l.

(** [CoRunRuleBuilder]: [handleTaskToggle(taskId)] as an update of
    [selectedTasks], and the [condition] and [action] the effect hands to
    [onChange]. *)
Definition handleTaskToggle (taskId : string) (prev : list string)
    : list string :=
  if includes taskId prev
  then List.filter (fun id => negb (id =? taskId)) prev
  else List.app prev [taskId].

Definition coRunCondition (selectedTasks : list string) : string :=
  match selectedTasks with
  | [] => ""
  | _ => "tasks: [" ++ join ", " selectedTasks ++ "]"
  end.

Definition coRunAction (selectedTasks : list string) : string :=
  match selectedTasks with
  | [] => ""
  | _ => "Schedule tasks " ++ join ", " selectedTasks ++ " to run together"
  end.

(** [array.sort((a, b) => a - b)] on integers: the ascending
    rearrangement of the array (there is only one). *)
Fixpoint insertSorted (x : Z) (l : list Z) : list Z :=
  match l with
  | [] => [x]
  | y :: rest => if (x <=? y)%Z then x :: y :: rest
                 else y :: insertSorted x rest
  end.

Definition sortAscending (l : list Z) : list Z :=
  fold_right insertSorted [] l.

(** A list of integers in strictly ascending order. *)
Fixpoint strictlyAscending (l : list Z) : Prop :=
  match l with
  | [] => True
  | x :: rest => List.Forall (Z.lt x) rest /\ strictlyAscending rest
  end.

(** [PhaseWindowRuleBuilder]: [handlePhaseToggle(phase)] as an update of
    [allowedPhases], and [handlePhaseRangeSelect(start, end)]. *)
Definition handlePhaseToggle (phase : Z) (prev : list Z) : list Z :=
  if existsb (Z.eqb phase) prev
  then List.filter (fun p => negb (p =? phase)%Z) prev
  else sortAscending (List.app prev [phase]).

Definition handlePhaseRangeSelect (start end_ : Z) : list Z :=
  seqZ start (end_ - start + 1).

(** [RuleBuilder]: the form state.  Of [typeSpecificData] the form reads
    the [condition] and [action] properties only.  The priority is an
    integer: the input stores [parseInt(e.target.value) || 5]. *)
Module RuleForm.
Record t := mk
  { ruleType : string; ruleName : string; ruleDescription : string;
    priority : Z; isActive : bool;
    condition : jsval; action : jsval }.
End RuleForm.

(** The rule handed to [onSave]. *)
Module RuleData.
Record t := mk
  { name : string; description : string; type : string; priority : Z;
    isActive : bool; condition : jsval; action : jsval }.
End RuleData.

Section RuleBuilder.

(** [String.prototype.trim] *)
Variable trim : string -> string.

(** [validateForm()]: the errors it stores. *)
Definition validateForm (form : RuleForm.t) : gmap string string :=
  let e1 : gmap string string :=
    if trim (RuleForm.ruleName form) =? ""
    then {[ "name" := "Rule name is required" ]} else ∅ in
  let e2 :=
    if RuleForm.ruleType form =? ""
    then <["type" := "Rule type is required"]> e1 else e1 in
  let e3 :=
    if trim (RuleForm.ruleDescription form) =? ""
    then <["description" := "Rule description is required"]> e2 else e2 in
  let e4 :=
    if ((RuleForm.priority form <? 1) || (10 <? RuleForm.priority form))%Z
    then <["priority" := "Priority must be between 1 and 10"]> e3 else e3 in
  if negb (RuleForm.ruleType form =? "")
     && negb (truthy (RuleForm.condition form))
  then <["typeSpecific" := "Please complete the rule configuration"]> e4
  else e4.

(** [handleSave()]: the rule passed to [onSave], if any. *)
Definition handleSave (form : RuleForm.t) : option RuleData.t :=
  if bool_decide (validateForm form = ∅) then
    Some (RuleData.mk (RuleForm.ruleName form) (RuleForm.ruleDescription form)
            (RuleForm.ruleType form) (RuleForm.priority form)
            (RuleForm.isActive form)
            (js_or (RuleForm.condition form) (JStr ""))
            (js_or (RuleForm.action form) (JStr "")))
  else None.

End RuleBuilder.

(** The form after the co-run builder reported [selectedTasks]:
    [handleTypeSpecificChange] stores what the builder computed. *)
Definition withCoRunTasks (selectedTasks : list string) (form : RuleForm.t)
    : RuleForm.t :=
  RuleForm.mk (RuleForm.ruleType form) (RuleForm.ruleName form)
    (RuleForm.ruleDescription form) (RuleForm.priority form)
    (RuleForm.isActive form)
    (JStr (coRunCondition selectedTasks)) (JStr (coRunAction selectedTasks)).

(* ===================================================================== *)
(** * [app/settings/page.tsx]: the sliders *)
(* ===================================================================== *)

(** [parseFloat(e.target.value)] for the slider position [k] of a range
    input with [min="0"], [max="1"] and [step="0.05"]: the double nearest
    to [k / 20]. *)
Definition sliderValue (k : nat) : f64 :=
  f64_div (f64_of_Z (Z.of_nat k)) (f64_of_Z 20).

(** [handlePriorityChange(key, value)] *)
Inductive PriorityKey := KPriorityLevel | KFairness | KCost.

Definition handlePriorityChange (key : PriorityKey) (value : f64)
    (prev : RulePriorities) : RulePriorities :=
  match key with
  | KPriorityLevel =>
      mkRulePriorities value (fairnessWeight prev) (costWeight prev)
  | KFairness =>
      mkRulePriorities (priorityLevelWeight prev) value (costWeight prev)
  | KCost =>
      mkRulePriorities (priorityLevelWeight prev) (fairnessWeight prev) value
  end.

(** Whether the gate opens on the slider positions [i], [j], [k]. *)
Definition gateOnGrid (i j k : nat) : bool :=
  saveEnabled false
    (mkRulePriorities (sliderValue i) (sliderValue j) (sliderValue k)).

(* ===================================================================== *)
(** * [components/table/EntityTable.tsx]: the keys of the rows *)
(* ===================================================================== *)

(** [row.k], [undefined] when the row has no such property. *)
Definition prop (row : Item) (k : string) : jsval :=
  default JUndefined (row !! k).

(** [getRowId(row, index)], the React key of the row rendered at
    [index]. *)
Definition getRowId (entity : EntityType) (row : Item) (index : nat)
    : string :=
  if truthy (prop row "id") then toString (prop row "id")
  else
    let entityId :=
      js_or (prop row "ClientID")
        (js_or (prop row "WorkerID") (prop row "TaskID")) in
    if truthy entityId
    then entityName entity ++ "-" ++ toString entityId ++ "-" ++ pretty index
    else entityName entity ++ "-row-" ++ pretty index.

(* ===================================================================== *)
(** * Properties of the regular-expression matcher *)
(* ===================================================================== *)

Lemma append_nil_l (s : string) : "" ++ s = s.
Proof. reflexivity. Qed.

Lemma append_cons (c : ascii) (s t : string) :
  String c s ++ t = String c (s ++ t).
Proof. reflexivity. Qed.

Ltac unfold_append_in H := rewrite ?append_cons, ?append_nil_l in H.
Ltac unfold_append := rewrite ?append_cons, ?append_nil_l.

Lemma nullable_lang (r : regex) : nullable r = true <-> lang r "".
Proof.
  induction r as [| | c | | r1 IH1 r2 IH2 | r1 IH1 r2 IH2 | r IH]; simpl.
  - split; [discriminate | tauto].
  - tauto.
  - split; discriminate.
  - split; [discriminate | intros (c & _ & H); discriminate].
  - rewrite orb_true_iff, IH1, IH2. tauto.
  - rewrite andb_true_iff, IH1, IH2. split.
    + intros [H1 H2]. exists "", "". auto.
    + intros (s1 & s2 & E & H1 & H2).
      destruct s1; [| discriminate]. unfold_append_in E. subst s2. auto.
  - split; [| reflexivity]. intros _. exists 0%nat. reflexivity.
Qed.

Lemma star_lang_cons (L : string -> Prop) (c : ascii) (n : nat) (s : string) :
  star_lang L n (String c s) ->
  exists s1 s2 m, s = s1 ++ s2 /\ L (String c s1) /\ star_lang L m s2.
Proof.
  induction n as [| n IH]; simpl.
  - discriminate.
  - intros (s1 & s2 & E & H1 & H2).
    destruct s1 as [| c' s1]; unfold_append_in E.
    + subst s2. auto.
    + injection E as -> ->. exists s1, s2, n. auto.
Qed.

Lemma deriv_lang (c : ascii) (r : regex) (s : string) :
  lang (deriv c r) s <-> lang r (String c s).
Proof.
  revert s.
  induction r as [| | d | | r1 IH1 r2 IH2 | r1 IH1 r2 IH2 | r IH];
    intros s; simpl.
  - tauto.
  - split; [tauto | discriminate].
  - destruct (Ascii.eqb_spec c d) as [-> | Hne]; simpl.
    + split; [intros -> | intros [= ->]]; reflexivity.
    + split; [tauto | intros [= -> ->]; congruence].
  - destruct (is_digit c) eqn:Hd; simpl.
    + split.
      * intros ->. exists c. auto.
      * intros (c' & _ & [= -> ->]). reflexivity.
    + split; [tauto |]. intros (c' & Hd' & [= -> ->]). congruence.
  - rewrite IH1, IH2. tauto.
  - destruct (nullable r1) eqn:Hn; simpl.
    + split.
      * intros [(s1 & s2 & -> & H1 & H2) | H2].
        -- exists (String c s1), s2. rewrite <- IH1. auto.
        -- exists "", (String c s). rewrite <- IH2, <- nullable_lang. auto.
      * intros (s1 & s2 & E & H1 & H2).
        destruct s1 as [| c' s1]; unfold_append_in E.
        -- subst s2. right. apply IH2. exact H2.
        -- injection E as -> ->. left. exists s1, s2. rewrite IH1. auto.
    + split.
      * intros (s1 & s2 & -> & H1 & H2).
        exists (String c s1), s2. rewrite <- IH1. auto.
      * intros (s1 & s2 & E & H1 & H2).
        destruct s1 as [| c' s1]; unfold_append_in E.
        -- apply nullable_lang in H1. congruence.
        -- injection E as -> ->. exists s1, s2. rewrite IH1. auto.
  - split.
    + intros (s1 & s2 & -> & H1 & (n & H2)).
      exists (S n). simpl. exists (String c s1), s2.
      rewrite <- IH. auto.
    + intros (n & H). apply star_lang_cons in H.
      destruct H as (s1 & s2 & m & -> & H1 & H2).
      exists s1, s2. rewrite IH. eauto.
Qed.

(** The derivative matcher decides the language of the regex. *)
Lemma regex_test_lang (r : regex) (s : string) :
  regex_test r s = true <-> lang r s.
Proof.
  revert r. induction s as [| c s IH]; intros r; simpl.
  - apply nullable_lang.
  - rewrite IH. apply deriv_lang.
Qed.

Lemma lang_RLit (w s : string) : lang (RLit w) s <-> s = w.
Proof.
  revert s. induction w as [| c w IH]; intros s; simpl.
  - tauto.
  - split.
    + intros (s1 & s2 & -> & -> & H2). apply IH in H2. subst. reflexivity.
    + intros ->. exists (String c ""), w. rewrite IH. auto.
Qed.

Lemma star_digits (n : nat) (s : string) :
  star_lang (lang RDigit) n s -> all_digits s = true.
Proof.
  revert s. induction n as [| n IH]; intros s; simpl.
  - intros ->. reflexivity.
  - intros (s1 & s2 & -> & (c & Hc & ->) & H2). simpl.
    rewrite Hc. simpl. auto.
Qed.

Lemma digits_star (s : string) :
  all_digits s = true -> star_lang (lang RDigit) (String.length s) s.
Proof.
  induction s as [| c s IH]; simpl.
  - reflexivity.
  - rewrite andb_true_iff. intros [Hc Hs].
    exists (String c ""), s. split; [reflexivity |]. split; [| auto].
    exists c. auto.
Qed.

Lemma lang_plus_digits (s : string) :
  lang (RPlus RDigit) s <-> s <> "" /\ all_digits s = true.
Proof.
  unfold RPlus. simpl. split.
  - intros (s1 & s2 & -> & (c & Hc & ->) & (n & H2)). simpl. split.
    + discriminate.
    + rewrite Hc. simpl. eapply star_digits; eauto.
  - intros [Hne Hd]. destruct s as [| c s]; [congruence |].
    simpl in Hd. apply andb_true_iff in Hd as [Hc Hs].
    exists (String c ""), s. split; [reflexivity |]. split.
    + exists c. auto.
    + exists (String.length s). apply digits_star. exact Hs.
Qed.

(** The strings accepted by [/^(clients|workers|tasks)-\d+$/] are exactly
    an entity name, a hyphen and a non-empty run of ASCII digits. *)
Lemma synthesizedIdPattern_spec (s : string) :
  regex_test synthesizedIdPattern s = true <->
  exists (e : EntityType) (ds : string),
    s = entityName e ++ "-" ++ ds /\ ds <> "" /\ all_digits ds = true.
Proof.
  rewrite regex_test_lang. unfold synthesizedIdPattern.
  change (lang (RSeq ?a ?b) s)
    with (exists s1 s2, s = s1 ++ s2 /\ lang a s1 /\ lang b s2).
  split.
  - intros (s1 & s2 & -> & H1 & (h & ds & -> & Hh & Hds)).
    apply lang_plus_digits in Hds. simpl in Hh. subst h.
    change (lang (RAlt ?a (RAlt ?b ?c)) s1)
      with (lang a s1 \/ lang b s1 \/ lang c s1) in H1.
    rewrite !lang_RLit in H1.
    destruct H1 as [-> | [-> | ->]];
      [exists clients | exists workers | exists tasks];
      exists ds; auto.
  - intros (e & ds & -> & Hne & Hd).
    exists (entityName e), ("-" ++ ds). split; [reflexivity |]. split.
    + change (lang (RAlt ?a (RAlt ?b ?c)) ?x)
        with (lang a x \/ lang b x \/ lang c x).
      rewrite !lang_RLit. destruct e; auto.
    + exists "-", ds. split; [reflexivity |]. split; [reflexivity |].
      apply lang_plus_digits. auto.
Qed.

(* ===================================================================== *)
(** * The validation-error adapter *)
(* ===================================================================== *)

Lemma synthesizedId_unfold (entity : EntityType) (row : jsval) :
  synthesizedId entity row =
  entityName entity ++ "-" ++ (if truthy row then toString row else "unknown").
Proof. unfold synthesizedId, js_or. destruct (truthy row); reflexivity. Qed.

Lemma getValidationErrors_ids (entity : EntityType)
    (errors : list BackendError.t) :
  map ValidationError.id
      (getValidationErrors entity (mkValidatePayload true (Some (Some errors))))
  = map (fun b => synthesizedId entity (BackendError.row b)) errors.
Proof.
  unfold getValidationErrors. simpl. rewrite map_map. reflexivity.
Qed.

Lemma getValidationErrors_Forall (entity : EntityType)
    (response_data : ValidatePayload) :
  List.Forall
    (fun err =>
       ValidationError.id err
       = entityName entity ++ "-" ++
         (if truthy (ValidationError.row err)
          then toString (ValidationError.row err) else "unknown"))
    (getValidationErrors entity response_data).
Proof.
  unfold getValidationErrors.
  destruct (validate_success response_data); [| constructor].
  destruct (validate_data response_data) as [[errors |] |];
    try constructor.
  induction errors as [| b errors IH]; simpl; constructor.
  - apply synthesizedId_unfold.
  - exact IH.
Qed.

(** C3, as stated, fails: with [row = 0] the adapter yields
    [tasks-unknown], whereas [`${e}-${row ?? 'unknown'}`] is [tasks-0]. *)
Lemma synthesized_id_nullish_counterexample :
  let payload :=
    mkValidatePayload true
      (Some (Some [BackendError.mk (JNum 0) "title" "Title is required"
                     (JStr "error") (JStr "required")])) in
  map ValidationError.id (getValidationErrors tasks payload)
  = ["tasks-unknown"]
  /\ nullishId tasks (JNum 0) = "tasks-0"
  /\ ~ (forall (entity : EntityType) (payload : ValidatePayload)
               (err : ValidationError.t),
           In err (getValidationErrors entity payload) ->
           ValidationError.id err
           = nullishId entity (ValidationError.row err)).
Proof.
  cbv zeta. split; [reflexivity |]. split; [reflexivity |].
  intros H.
  specialize (H tasks
    (mkValidatePayload true
       (Some (Some [BackendError.mk (JNum 0) "title" "Title is required"
                      (JStr "error") (JStr "required")])))
    (ValidationError.mk "tasks-unknown" "title" JNull "Title is required"
       JNull None (JStr "error") (JStr "required") (JNum 0))).
  assert (E : "tasks-unknown" = "tasks-0") by (apply H; left; reflexivity).
  discriminate E.
Qed.

(** C3, amended: every error returned for entity [e] gets the ID
    [`${e}-${row || 'unknown'}`], that is the entity name, a hyphen, and
    the row when the row is truthy, else the literal [unknown]; the list
    keeps the backend's order.  Two errors of the same entity and the same
    row get the same ID whatever their other fields are, and two errors of
    entity [tasks] at row 4 both get [tasks-4]. *)
Theorem getValidationErrors_synthesized_ids
    (entity : EntityType) (response_data : ValidatePayload)
    (errors : list BackendError.t)
    (row severity1 severity2 type1 type2 : jsval)
    (field1 field2 message1 message2 : string) :
  let payload l := mkValidatePayload true (Some (Some l)) in
  let err1 r := BackendError.mk r field1 message1 severity1 type1 in
  let err2 r := BackendError.mk r field2 message2 severity2 type2 in
  List.Forall
    (fun err =>
       ValidationError.id err
       = entityName entity ++ "-" ++
         (if truthy (ValidationError.row err)
          then toString (ValidationError.row err) else "unknown"))
    (getValidationErrors entity response_data)
  /\ map ValidationError.id (getValidationErrors entity (payload errors))
  = map (fun b =>
           entityName entity ++ "-" ++
           (if truthy (BackendError.row b)
            then toString (BackendError.row b) else "unknown")) errors
  /\ map ValidationError.field (getValidationErrors entity (payload errors))
     = map BackendError.field errors
  /\ map ValidationError.id
         (getValidationErrors entity (payload [err1 row; err2 row]))
     = [synthesizedId entity row; synthesizedId entity row]
  /\ map ValidationError.id
         (getValidationErrors tasks (payload [err1 (JNum 4); err2 (JNum 4)]))
     = ["tasks-4"; "tasks-4"].
Proof.
  cbv zeta. repeat split.
  - apply getValidationErrors_Forall.
  - rewrite getValidationErrors_ids. apply map_ext.
    intros b. apply synthesizedId_unfold.
  - unfold getValidationErrors. simpl. rewrite map_map. reflexivity.
Qed.

Lemma pretty_N_char_digit (x : N) : is_digit (pretty_N_char x) = true.
Proof.
  unfold pretty_N_char. repeat case_match; reflexivity.
Qed.

Lemma pretty_N_go_digits (x : N) (s : string) :
  all_digits s = true -> all_digits (pretty_N_go x s) = true.
Proof.
  revert s. induction (N.lt_wf_0 x) as [x _ IH]; intros s Hs.
  destruct (N.eq_dec x 0%N) as [-> | Hx].
  - rewrite pretty_N_go_0. exact Hs.
  - rewrite pretty_N_go_step by lia. apply IH.
    + apply N.div_lt; lia.
    + simpl. rewrite pretty_N_char_digit, Hs. reflexivity.
Qed.

Lemma pretty_N_go_nonempty (x : N) (s : string) :
  s <> "" -> pretty_N_go x s <> "".
Proof.
  revert s. induction (N.lt_wf_0 x) as [x _ IH]; intros s Hs.
  destruct (N.eq_dec x 0%N) as [-> | Hx].
  - rewrite pretty_N_go_0. exact Hs.
  - rewrite pretty_N_go_step by lia. apply IH.
    + apply N.div_lt; lia.
    + discriminate.
Qed.

Lemma pretty_positive_digits (p : positive) :
  pretty (Zpos p) <> "" /\ all_digits (pretty (Zpos p)) = true.
Proof.
  change (pretty (Zpos p)) with (pretty_N_go (Npos p) "").
  split.
  - rewrite pretty_N_go_step by lia. apply pretty_N_go_nonempty. discriminate.
  - apply pretty_N_go_digits. reflexivity.
Qed.

(** The IDs synthesized for positive row numbers, printed as decimal
    numerals (see [toString]), are exactly of the shape the apply guard
    looks for; the ID of an error without a usable row is not. *)
Lemma synthesizedId_matches_guard (entity : EntityType) (p : positive) :
  regex_test synthesizedIdPattern (synthesizedId entity (JNum (Zpos p))) = true
  /\ regex_test synthesizedIdPattern (synthesizedId entity JUndefined) = false
  /\ regex_test synthesizedIdPattern (synthesizedId entity (JNum 0)) = false.
Proof.
  split.
  - apply synthesizedIdPattern_spec. exists entity, (pretty (Zpos p)).
    destruct (pretty_positive_digits p) as [Hne Hd]. auto.
  - destruct entity; split; reflexivity.
Qed.

(* ===================================================================== *)
(** * The pagination adapter *)
(* ===================================================================== *)

(** C4, as stated, fails: for a bare array the adapter echoes the
    requested page, it does not force page 1. *)
Lemma getEntities_bare_array_page_counterexample :
  getEntities tasks 2 50 (BareArray [7; 8; 9]%nat)
  = PaginatedResponse.mk [7; 8; 9]%nat 3 2 50 (Int 1)
  /\ ~ (forall (entity : EntityType) (page limit : Z) (arr : list nat),
           getEntities entity page limit (BareArray arr)
           = PaginatedResponse.mk arr (Z.of_nat (length arr)) 1 limit (Int 1)).
Proof.
  split; [reflexivity |].
  intros H. specialize (H tasks 2%Z 50%Z [7; 8; 9]%nat).
  discriminate H.
Qed.

(** C4, amended: for a bare-array response and every requested page and
    limit, [getEntities] returns [{items: the array, total: its length,
    page: the requested page, limit: the requested limit, totalPages: 1}]. *)
Theorem getEntities_bare_array
    (T : Type) (entity : EntityType) (page limit : Z) (arr : list T) :
  getEntities entity page limit (BareArray arr)
  = PaginatedResponse.mk arr (Z.of_nat (length arr)) page limit (Int 1).
Proof. reflexivity. Qed.

Lemma field_or_zero {A : Type} (f : A -> Z) (a : A) :
  field_or f (Some a) 0 = f a.
Proof.
  unfold field_or. destruct (Z.eqb_spec (f a) 0) as [E | _]; congruence.
Qed.

(** C5, as stated, fails: a pagination object whose [page] is 0 is
    replaced by the requested page (and likewise for [limit]). *)
Lemma getEntities_envelope_counterexample :
  getEntities tasks 1 50
    (Envelope true (Some [7; 8; 9]%nat) (Some (BackendPagination.mk 0 50 3 1)))
  = PaginatedResponse.mk [7; 8; 9]%nat 3 1 50 (Int 1)
  /\ ~ (forall (entity : EntityType) (page limit : Z) (data : list nat)
               (p : BackendPagination.t),
           let out :=
             getEntities entity page limit
               (Envelope true (Some data) (Some p)) in
           PaginatedResponse.items out = data
           /\ PaginatedResponse.page out = BackendPagination.page p
           /\ PaginatedResponse.limit out = BackendPagination.limit p
           /\ PaginatedResponse.total out = BackendPagination.total p
           /\ PaginatedResponse.totalPages out
              = Int (BackendPagination.totalPages p)).
Proof.
  split; [reflexivity |].
  intros H.
  specialize (H tasks 1%Z 50%Z [7; 8; 9]%nat (BackendPagination.mk 0 50 3 1)).
  cbv zeta in H. destruct H as (_ & Hpage & _). discriminate Hpage.
Qed.

(** C5, amended: for a response [{success: true, data, pagination}] the
    output has [items = data] and [total = pagination.total]; [page] and
    [limit] equal the pagination fields when these are non-zero and the
    requested page and limit otherwise; [totalPages] equals
    [pagination.totalPages] when it is non-zero, else
    [Math.ceil(total / limit)] with the requested limit. *)
Theorem getEntities_envelope
    (T : Type) (entity : EntityType) (page limit : Z) (data : list T)
    (p : BackendPagination.t) :
  let out :=
    getEntities entity page limit (Envelope true (Some data) (Some p)) in
  PaginatedResponse.items out = data
  /\ PaginatedResponse.total out = BackendPagination.total p
  /\ PaginatedResponse.page out
     = (if (BackendPagination.page p =? 0)%Z
        then page else BackendPagination.page p)
  /\ PaginatedResponse.limit out
     = (if (BackendPagination.limit p =? 0)%Z
        then limit else BackendPagination.limit p)
  /\ PaginatedResponse.totalPages out
     = (if (BackendPagination.totalPages p =? 0)%Z
        then ceil_div (BackendPagination.total p) limit
        else Int (BackendPagination.totalPages p)).
Proof.
  cbv zeta. unfold getEntities.
  rewrite field_or_zero. repeat split; reflexivity.
Qed.

(** When the backend's page, limit and page count are all non-zero, the
    adapter copies the four pagination fields unchanged. *)
Corollary getEntities_envelope_nonzero
    (T : Type) (entity : EntityType) (page limit : Z) (data : list T)
    (p : BackendPagination.t) :
  BackendPagination.page p <> 0%Z ->
  BackendPagination.limit p <> 0%Z ->
  BackendPagination.totalPages p <> 0%Z ->
  getEntities entity page limit (Envelope true (Some data) (Some p))
  = PaginatedResponse.mk data
      (BackendPagination.total p) (BackendPagination.page p)
      (BackendPagination.limit p) (Int (BackendPagination.totalPages p)).
Proof.
  intros Hp Hl Ht. unfold getEntities, field_or.
  apply Z.eqb_neq in Hp, Hl, Ht. rewrite Hp, Hl, Ht.
  f_equal. destruct (Z.eqb_spec (BackendPagination.total p) 0); congruence.
Qed.

(* ===================================================================== *)
(** * The data store *)
(* ===================================================================== *)

Lemma spread_lookup (a b : gmap string jsval) (k : string) :
  spread a b !! k = match b !! k with Some v => Some v | None => a !! k end.
Proof.
  unfold spread. rewrite lookup_union.
  destruct (b !! k), (a !! k); reflexivity.
Qed.

(** C7: [setFilters] sets [pagination.page] to 1, leaves [limit], [total]
    and [totalPages] as they were, merges the new filters over the
    existing ones (a key of the update wins, every other key is kept), and
    touches no other slice of the store. *)
Theorem setFilters_resets_page
    (T : Type) (new_filters : gmap string jsval) (state : DataStore.t T) :
  let state' := setFilters new_filters state in
  Pagination.page (DataStore.pagination state') = 1%Z
  /\ Pagination.limit (DataStore.pagination state')
     = Pagination.limit (DataStore.pagination state)
  /\ Pagination.total (DataStore.pagination state')
     = Pagination.total (DataStore.pagination state)
  /\ Pagination.totalPages (DataStore.pagination state')
     = Pagination.totalPages (DataStore.pagination state)
  /\ (forall k : string,
        DataStore.filters state' !! k
        = match new_filters !! k with
          | Some v => Some v
          | None => DataStore.filters state !! k
          end)
  /\ DataStore.currentEntity state' = DataStore.currentEntity state
  /\ DataStore.entities state' = DataStore.entities state
  /\ DataStore.loading state' = DataStore.loading state
  /\ DataStore.error state' = DataStore.error state
  /\ DataStore.selectedItems state' = DataStore.selectedItems state.
Proof.
  cbv zeta. unfold setFilters. simpl.
  repeat split; try reflexivity.
  intros k. apply spread_lookup.
Qed.

(* ===================================================================== *)
(** * The rule-recommendation query *)
(* ===================================================================== *)

Lemma is_status_400_decide (error : AxiosError) :
  is_status_400 error = bool_decide (response_status error = Some 400%Z).
Proof.
  unfold is_status_400. destruct (response_status error) as [s |].
  - destruct (Z.eqb_spec s 400) as [-> | Hne].
    + symmetry. apply bool_decide_eq_true. reflexivity.
    + symmetry. apply bool_decide_eq_false. congruence.
  - symmetry. apply bool_decide_eq_false. discriminate.
Qed.

Lemma grantedRetries_retry (fuel n : nat) (error : AxiosError) :
  is_status_400 error = false ->
  (3 - n < fuel)%nat ->
  grantedRetries retry fuel n error = (3 - n)%nat.
Proof.
  intros H400. revert n. induction fuel as [| fuel IH]; intros n Hfuel.
  - lia.
  - simpl. unfold retry at 1. rewrite H400.
    destruct (Nat.ltb_spec n 3) as [Hlt | Hge].
    + rewrite IH by lia. lia.
    + lia.
Qed.

(** C8: when the recommendation endpoint fails with HTTP 400, the query
    function resolves with the empty list instead of rejecting, and the
    retry policy refuses every retry; any other failure is rethrown by the
    query function, and the policy grants a retry exactly while fewer than
    three have been made, so that such a query is retried three times. *)
Theorem recommendations_400_is_empty_state
    (R : Type) (error : AxiosError) (failureCount extra : nat) :
  let no_data := bool_decide (response_status error = Some 400%Z) in
  queryFn (R := R) (Rejected error)
  = (if no_data then Resolved [] else Rejected error)
  /\ retry failureCount error
     = (if no_data then false else (failureCount <? 3)%nat)
  /\ grantedRetries retry (4 + extra) 0 error
     = (if no_data then 0%nat else 3%nat).
Proof.
  cbv zeta. rewrite <- is_status_400_decide.
  unfold queryFn, getRuleRecommendations, retry.
  destruct (is_status_400 error) eqn:H400.
  - repeat split. simpl. unfold retry. rewrite H400. reflexivity.
  - repeat split. rewrite grantedRetries_retry; [reflexivity | exact H400 | lia].
Qed.

(* ===================================================================== *)
(** * The upload-status adapter *)
(* ===================================================================== *)




(* ===================================================================== *)
(** * The AI-fix page: batch cap *)
(* ===================================================================== *)

(** C9: whenever [handleGenerateFixes] runs on a non-empty error list
    while no generation is in flight, it sends one request, a POST to
    [/ai/fix-errors], and the body of that request holds the selected
    entity and the first [min 20 n] errors of the [n] listed ones, each at
    its position of the list; the errors after the twentieth are in no
    request. *)
Theorem handleGenerateFixes_batch_cap
    (st : Page.t) (validationErrors : list ValidationError.t) :
  Page.validationErrors st = Some validationErrors ->
  validationErrors <> [] ->
  Page.isGeneratingFixes st = false ->
  exists (request : Request) (sent : list ValidationError.t),
    List.filter is_request (snd (handleGenerateFixes st)) = [Send request]
    /\ req_method request = POST
    /\ req_url request = "/ai/fix-errors"
    /\ req_body request = FixErrorsBody (Page.selectedEntity st) sent
    /\ length sent = Nat.min 20 (length validationErrors)
    /\ (forall i : nat,
          nth_error sent i
          = if (i <? 20)%nat then nth_error validationErrors i else None)
    /\ validationErrors = List.app sent (skipn 20 validationErrors)
    /\ Page.isGeneratingFixes (fst (handleGenerateFixes st)) = true.
Proof.
  intros Hdata Hne Hgen.
  exists (fixErrors (Page.selectedEntity st) (firstn 20 validationErrors)),
         (firstn 20 validationErrors).
  unfold handleGenerateFixes. rewrite Hdata, Hgen.
  destruct validationErrors as [| e rest]; [congruence |].
  split.
  { unfold maxErrors.
    destruct (20 <? length (e :: rest))%nat; reflexivity. }
  do 3 (split; [reflexivity |]).
  split; [apply length_firstn |].
  split.
  { intros i. apply nth_error_firstn. }
  split; [symmetry; apply firstn_skipn | reflexivity].
Qed.

Lemma handleGenerateFixes_batch_cap_witness :
  let e (row : nat) :=
    ValidationError.mk ("tasks-" ++ pretty row) "title" JNull
      "Title is required" JNull None (JStr "error") (JStr "required")
      (JNum (Z.of_nat row)) in
  let st := Page.mk tasks [] ∅ false ∅ (Some (map e (seq 1 25))) in
  exists request : Request,
    List.filter is_request (snd (handleGenerateFixes st)) = [Send request]
    /\ req_url request = "/ai/fix-errors"
    /\ req_body request = FixErrorsBody tasks (map e (seq 1 20)).
Proof.
  cbv zeta.
  destruct (handleGenerateFixes_batch_cap
              (Page.mk tasks [] ∅ false ∅
                 (Some (map (fun row : nat =>
                               ValidationError.mk ("tasks-" ++ pretty row)
                                 "title" JNull "Title is required" JNull None
                                 (JStr "error") (JStr "required")
                                 (JNum (Z.of_nat row)))
                            (seq 1 25))))
              (map (fun row : nat =>
                      ValidationError.mk ("tasks-" ++ pretty row)
                        "title" JNull "Title is required" JNull None
                        (JStr "error") (JStr "required")
                        (JNum (Z.of_nat row)))
                   (seq 1 25))
              eq_refl ltac:(discriminate) eq_refl)
    as (request & sent & Hsend & _ & Hurl & Hbody & _).
  exists request. split; [exact Hsend |]. split; [exact Hurl |].
  injection Hsend as <-. reflexivity.
Defined.

(* ===================================================================== *)
(** * The AI-fix page: the apply guard *)
(* ===================================================================== *)

Lemma actualRecordId_unmapped (m : gmap string string)
    (error : ValidationError.t) :
  mappedId m error = None -> actualRecordId m error = ValidationError.id error.
Proof. unfold actualRecordId. intros ->. reflexivity. Qed.

(** C2: a fix whose resolved record ID does not come from the
    reconciliation map (so it is the fix's own ID) and still matches
    [/^(clients|workers|tasks)-\d+$/] is rejected: the handler only shows
    an error toast, sends no request and leaves the state as it was. *)
Theorem handleApplyFix_fails_closed (st : Page.t) (error : ValidationError.t) :
  mappedId (Page.validationToFixIdMap st) error = None ->
  regex_test synthesizedIdPattern
    (actualRecordId (Page.validationToFixIdMap st) error) = true ->
  (exists msg : string, handleApplyFix st error = (st, [ToastError msg]))
  /\ List.filter is_request (snd (handleApplyFix st error)) = [].
Proof.
  intros Hunmapped Hmatch.
  rewrite (actualRecordId_unmapped _ _ Hunmapped) in Hmatch.
  unfold handleApplyFix.
  destruct (truthy (ValidationError.suggested_fix error)); simpl.
  - rewrite (actualRecordId_unmapped _ _ Hunmapped).
    rewrite String.eqb_refl, Hmatch, orb_true_r. simpl. eauto.
  - eauto.
Qed.

Lemma handleApplyFix_fails_closed_witness :
  let st := Page.mk tasks [] ∅ false ∅ None in
  let error := ValidationError.mk "tasks-4" "title" (JStr "") "Title is empty"
                 (JStr "Untitled") None JUndefined JUndefined JUndefined in
  (exists msg : string, handleApplyFix st error = (st, [ToastError msg]))
  /\ List.filter is_request (snd (handleApplyFix st error)) = [].
Proof.
  cbv zeta. apply handleApplyFix_fails_closed; reflexivity.
Defined.

(* ===================================================================== *)
(** * The AI-fix page: ID reconciliation *)
(* ===================================================================== *)



(** A fix is matched into the original errors it was computed from. *)
Lemma matchingOriginalError_In (originals : list ValidationError.t)
    (fx : AIFix.t) (e : ValidationError.t) :
  matchingOriginalError originals fx = Some e -> In e originals.
Proof.
  unfold matchingOriginalError, findById, findByField.
  destruct (AIFix.originalValidationId fx) as [ovid |].
  - destruct (truthy_str ovid).
    + destruct (List.find _ originals) eqn:E.
      * intros [= <-]. eapply find_some; eauto.
      * intros H. eapply find_some; eauto.
    + intros H. eapply find_some; eauto.
  - intros H. eapply find_some; eauto.
Qed.



Lemma reconcile_fold_lookup (originals : list ValidationError.t)
    (fixes : list AIFix.t)
    (acc : gmap string string * list ValidationError.t) (k : string) :
  fst (fold_left (reconcileStep originals) fixes acc) !! k
  = match lastFixFor originals k fixes with
    | Some fx => Some (AIFix.rowId fx)
    | None => fst acc !! k
    end.
Proof.
  induction fixes as [| fx fixes IH] using rev_ind.
  - reflexivity.
  - rewrite fold_left_app. simpl.
    unfold lastFixFor. rewrite rev_unit. simpl.
    unfold reconcileStep at 1. simpl. unfold matches_key at 1.
    destruct (matchingOriginalError originals fx) as [e |].
    + destruct (String.eqb_spec (ValidationError.id e) k) as [-> | Hne].
      * apply lookup_insert_eq.
      * rewrite lookup_insert_ne by exact Hne. apply IH.
    + apply IH.
Qed.

(** The reconciliation map, entry by entry. *)
Lemma reconcile_lookup (originals : list ValidationError.t)
    (fixes : list AIFix.t) (k : string) :
  fst (reconcile originals fixes) !! k
  = AIFix.rowId <$> lastFixFor originals k fixes.
Proof.
  unfold reconcile. rewrite reconcile_fold_lookup.
  destruct (lastFixFor originals k fixes); reflexivity.
Qed.

(** The working list after reconciliation: one transformed fix per fix,
    in the order of the response. *)
Lemma reconcile_fold_list (originals : list ValidationError.t)
    (fixes : list AIFix.t)
    (acc : gmap string string * list ValidationError.t) :
  snd (fold_left (reconcileStep originals) fixes acc)
  = List.app (snd acc)
      (map (fun fx => transformFix fx (matchingOriginalError originals fx))
           fixes).
Proof.
  revert acc. induction fixes as [| fx fixes IH]; intros acc; simpl.
  - symmetry. apply app_nil_r.
  - rewrite IH. simpl. rewrite <- app_assoc. reflexivity.
Qed.

Lemma reconcile_list (originals : list ValidationError.t)
    (fixes : list AIFix.t) :
  snd (reconcile originals fixes)
  = map (fun fx => transformFix fx (matchingOriginalError originals fx)) fixes.
Proof. unfold reconcile. rewrite reconcile_fold_list. reflexivity. Qed.

(** Every key of the reconciliation map is the ID of an original error. *)
Lemma reconcile_keys (originals : list ValidationError.t)
    (fixes : list AIFix.t) (k v : string) :
  fst (reconcile originals fixes) !! k = Some v ->
  exists e, In e originals /\ ValidationError.id e = k.
Proof.
  rewrite reconcile_lookup. unfold lastFixFor.
  destruct (List.find _ (rev fixes)) as [fx |] eqn:E; [| discriminate].
  intros _. apply find_some in E as [_ Hk]. unfold matches_key in Hk.
  destruct (matchingOriginalError originals fx) as [e |] eqn:Hm;
    [| discriminate].
  exists e. split.
  - eapply matchingOriginalError_In; eauto.
  - apply String.eqb_eq. exact Hk.
Qed.


Lemma truthy_str_true (s : string) : s <> "" -> truthy_str s = true.
Proof.
  intros H. unfold truthy_str. apply String.eqb_neq in H. rewrite H.
  reflexivity.
Qed.



(** A fix whose suggested value is falsy (here the number 0) is never
    applied, although it was matched by [originalValidationId]. *)
Example apply_needs_truthy_suggestion :
  let e := ValidationError.mk "tasks-4" "priority" JNull "Out of range"
             JNull None JUndefined JUndefined (JNum 4) in
  let fx := AIFix.mk "12" "priority" (JNum 99) (JNum 0) None (JNum 1)
              (Some "tasks-4") in
  let st' := fst (fixErrors_onSuccess (Page.mk tasks [] ∅ true ∅ (Some [e]))
                    (Some [fx]) [e]) in
  Page.validationToFixIdMap st' !! "tasks-4" = Some "12"
  /\ snd (handleApplyFix st' (transformFix fx (Some e)))
     = [ToastError "No suggested fix available"].
Proof. cbv zeta. split; vm_compute; reflexivity. Qed.

(** A fix whose [rowId] itself looks like a synthesized ID is rejected by
    the guard when that ID is no key of the map. *)
Example apply_rejects_synthesized_rowId :
  let e := ValidationError.mk "tasks-4" "title" JNull "Title is required"
             JNull None JUndefined JUndefined (JNum 4) in
  let fx := AIFix.mk "tasks-7" "title" JNull (JStr "Untitled") None (JNum 1)
              (Some "tasks-4") in
  let st' := fst (fixErrors_onSuccess (Page.mk tasks [] ∅ true ∅ (Some [e]))
                    (Some [fx]) [e]) in
  Page.validationToFixIdMap st' !! "tasks-4" = Some "tasks-7"
  /\ snd (handleApplyFix st' (transformFix fx (Some e)))
     = [ToastError "Cannot apply fix: Invalid record ID tasks-7"].
Proof. cbv zeta. split; vm_compute; reflexivity. Qed.

(** A fix whose [rowId] equals the ID of an original error is resolved
    through the map a second time: the update goes to the record the map
    holds for that key. *)
Example apply_follows_map_for_colliding_rowId :
  let e4 := ValidationError.mk "tasks-4" "title" JNull "Title is required"
              JNull None JUndefined JUndefined (JNum 4) in
  let e5 := ValidationError.mk "tasks-5" "deadline" JNull "Invalid date"
              JNull None JUndefined JUndefined (JNum 5) in
  let f4 := AIFix.mk "tasks-5" "title" JNull (JStr "Untitled") None (JNum 1)
              (Some "tasks-4") in
  let f5 := AIFix.mk "99" "deadline" JNull (JStr "2025-01-01") None (JNum 1)
              (Some "tasks-5") in
  let st' := fst (fixErrors_onSuccess
                    (Page.mk tasks [] ∅ true ∅ (Some [e4; e5]))
                    (Some [f4; f5]) [e4; e5]) in
  snd (handleApplyFix st' (transformFix f4 (Some e4)))
  = [Send (updateEntity tasks "99" [("title", JStr "Untitled")])].
Proof. cbv zeta. vm_compute. reflexivity. Qed.

(** An empty [originalValidationId] is skipped by the ID match, even when
    an original error has the empty ID. *)
Example empty_original_id_is_not_matched :
  let e := ValidationError.mk "" "title" JNull "Title is required"
             JNull None JUndefined JUndefined JUndefined in
  let fx := AIFix.mk "12" "deadline" JNull (JStr "2025-01-01") None (JNum 1)
              (Some "") in
  matchingOriginalError [e] fx = None.
Proof. reflexivity. Qed.



(* ===================================================================== *)
(** * Binary64 comparisons and sums *)
(* ===================================================================== *)

Lemma SFcompare_swap (a b : spec_float) :
  SFcompare a b = option_map CompOpp (SFcompare b a).
Proof.
  destruct a as [sa | sa | | sa ma ea], b as [sb | sb | | sb mb eb]; simpl;
    try reflexivity;
    try (destruct sa; reflexivity);
    try (destruct sb; reflexivity);
    try (destruct sa, sb; reflexivity).
  destruct sa, sb; simpl; try reflexivity.
  - rewrite (Z.compare_antisym ea eb).
    destruct (ea ?= eb)%Z; simpl; try reflexivity.
    change (Pos.compare_cont Eq ma mb) with (Pos.compare ma mb).
    change (Pos.compare_cont Eq mb ma) with (Pos.compare mb ma).
    rewrite (Pos.compare_antisym ma mb).
    destruct (ma ?= mb)%positive; reflexivity.
  - rewrite (Z.compare_antisym ea eb).
    destruct (ea ?= eb)%Z; simpl; try reflexivity.
    change (Pos.compare_cont Eq ma mb) with (Pos.compare ma mb).
    change (Pos.compare_cont Eq mb ma) with (Pos.compare mb ma).
    rewrite (Pos.compare_antisym ma mb).
    destruct (ma ?= mb)%positive; reflexivity.
Qed.

Lemma SFcompare_None (a b : spec_float) :
  SFcompare a b = None -> f64_is_nan a = true \/ f64_is_nan b = true.
Proof.
  destruct a, b; simpl; auto; discriminate.
Qed.

Lemma f64_not_gt (x c : f64) :
  f64_is_nan c = false ->
  negb (f64_gt x c) = f64_le x c || f64_is_nan x.
Proof.
  intros Hc. unfold f64_gt, f64_le, SFltb, SFleb.
  rewrite (SFcompare_swap c x).
  destruct (SFcompare x c) as [[| |] |] eqn:E; simpl.
  - destruct x; reflexivity.
  - destruct x; reflexivity.
  - destruct x; try reflexivity. destruct c; discriminate.
  - apply SFcompare_None in E as [E | E]; [| congruence].
    rewrite E. reflexivity.
Qed.

Section NotNaN.
Variables prec emax : Z.

Lemma iter_pos_invariant {A : Type} (P : A -> Prop) (f : A -> A) :
  (forall x, P x -> P (f x)) ->
  forall (n : positive) (x : A), P x -> P (SpecFloat.iter_pos f n x).
Proof.
  intros Hf. induction n as [n IH | n IH |]; intros x Hx; simpl; auto.
Qed.

Lemma shr_1_nonneg (mrs : shr_record) :
  (0 <= shr_m mrs)%Z -> (0 <= shr_m (shr_1 mrs))%Z.
Proof.
  destruct mrs as [m r s]. simpl.
  destruct m as [| [p | p |] | p]; simpl; lia.
Qed.

Lemma shr_nonneg (mrs : shr_record) (e n : Z) :
  (0 <= shr_m mrs)%Z -> (0 <= shr_m (fst (shr mrs e n)))%Z.
Proof.
  intros H. unfold shr. destruct n; simpl; auto.
  apply (iter_pos_invariant (fun r => 0 <= shr_m r)%Z); auto.
  apply shr_1_nonneg.
Qed.

Lemma shr_fexp_nonneg (m e : Z) (l : location) :
  (0 <= m)%Z -> (0 <= shr_m (fst (shr_fexp prec emax m e l)))%Z.
Proof.
  intros H. unfold shr_fexp. apply shr_nonneg.
  destruct l as [| []]; exact H.
Qed.

Lemma round_nearest_even_nonneg (m : Z) (l : location) :
  (0 <= m)%Z -> (0 <= round_nearest_even m l)%Z.
Proof.
  intros H. unfold round_nearest_even.
  destruct l as [| []]; try destruct (Z.even m); lia.
Qed.

Lemma binary_round_aux_not_nan (sx : bool) (mx ex : Z) (lx : location) :
  (0 <= mx)%Z -> binary_round_aux prec emax sx mx ex lx <> S754_nan.
Proof.
  intros H. unfold binary_round_aux.
  pose proof (shr_fexp_nonneg mx ex lx H) as H1.
  destruct (shr_fexp prec emax mx ex lx) as [mrs' e']. simpl in H1.
  pose proof (shr_fexp_nonneg
                (round_nearest_even (shr_m mrs') (loc_of_shr_record mrs'))
                e' loc_Exact
                (round_nearest_even_nonneg _ _ H1)) as H2.
  destruct (shr_fexp prec emax _ e' loc_Exact) as [mrs'' e''].
  simpl in H2.
  destruct (shr_m mrs'') as [| m | m]; try discriminate.
  - destruct (e'' <=? emax - prec)%Z; discriminate.
  - lia.
Qed.

Lemma binary_normalize_not_nan (m e : Z) (szero : bool) :
  binary_normalize prec emax m e szero <> S754_nan.
Proof.
  unfold binary_normalize, binary_round.
  destruct m as [| m | m]; [discriminate | |];
    destruct (shl_align _ _ _) as [mz ez];
    apply binary_round_aux_not_nan; lia.
Qed.

Lemma SFadd_not_nan (x y : spec_float) :
  f64_is_nan x = false -> f64_is_finite y = true ->
  f64_is_nan (SFadd prec emax x y) = false.
Proof.
  intros Hx Hy.
  destruct x as [sx | sx | | sx mx ex], y as [sy | sy | | sy my ey];
    try discriminate; try reflexivity.
  - simpl. destruct sx, sy; reflexivity.
  - unfold SFadd.
    destruct (binary_normalize prec emax _ _ false) eqn:E; try reflexivity.
    exfalso. exact (binary_normalize_not_nan _ _ _ E).
Qed.

Lemma SFsub_not_nan (x y : spec_float) :
  f64_is_nan x = false -> f64_is_finite y = true ->
  f64_is_nan (SFsub prec emax x y) = false.
Proof.
  intros Hx Hy.
  destruct x as [sx | sx | | sx mx ex], y as [sy | sy | | sy my ey];
    try discriminate; try reflexivity.
  - simpl. destruct sx, sy; reflexivity.
  - unfold SFsub.
    destruct (binary_normalize prec emax _ _ false) eqn:E; try reflexivity.
    exfalso. exact (binary_normalize_not_nan _ _ _ E).
Qed.
End NotNaN.

(* ===================================================================== *)
(** * The priority-weight gate *)
(* ===================================================================== *)

(** The literals are the correctly rounded quotients they denote. *)
Lemma literals_are_rounded_decimals :
  lit_1_0 = f64_of_Z 1
  /\ lit_0_01 = f64_div (f64_of_Z 1) (f64_of_Z 100)
  /\ lit_0_4 = f64_div (f64_of_Z 4) (f64_of_Z 10)
  /\ lit_0_3 = f64_div (f64_of_Z 3) (f64_of_Z 10)
  /\ lit_0_25 = f64_div (f64_of_Z 25) (f64_of_Z 100).
Proof. repeat split; vm_compute; reflexivity. Qed.

Lemma deviation_not_nan (p : RulePriorities) :
  f64_is_finite (priorityLevelWeight p) = true ->
  f64_is_finite (fairnessWeight p) = true ->
  f64_is_finite (costWeight p) = true ->
  f64_is_nan (deviation p) = false.
Proof.
  intros Ha Hb Hc. unfold deviation, totalWeight, f64_add, f64_sub.
  assert (Hsum : f64_is_nan
            (SFsub 53 1024
               (SFadd 53 1024
                  (SFadd 53 1024 (priorityLevelWeight p) (fairnessWeight p))
                  (costWeight p)) lit_1_0) = false).
  { apply SFsub_not_nan; [| reflexivity].
    apply SFadd_not_nan; [| exact Hc].
    apply SFadd_not_nan; [| exact Hb].
    destruct (priorityLevelWeight p); (discriminate || reflexivity). }
  destruct (SFsub 53 1024 _ lit_1_0); (discriminate || reflexivity).
Qed.

(** C6: the code at the failing input.  The weights arrive from
    [rulesService.getPriorities()]; when they are [Infinity], [-Infinity]
    and 0 (the JSON numbers [1e999], [-1e999] and [0]) their sum is NaN,
    the test [> 0.01] is false, and the save action is enabled although
    [|sum - 1.0| <= 0.01] does not hold: the claim's rule, that the action
    is disabled outside the tolerance, is broken on this input. *)
Lemma weight_gate_open_on_nan :
  let p := mkRulePriorities (S754_infinity false) (S754_infinity true)
             (S754_zero false) in
  totalWeight p = S754_nan
  /\ saveEnabled false p = true
  /\ f64_le (deviation p) lit_0_01 = false
  /\ ~ (forall (updating : bool) (p : RulePriorities),
           saveEnabled updating p = true ->
           f64_le (deviation p) lit_0_01 = true).
Proof.
  cbv zeta. repeat (split; [reflexivity |]).
  intros H.
  specialize (H false
    (mkRulePriorities (S754_infinity false) (S754_infinity true)
       (S754_zero false)) eq_refl).
  vm_compute in H. discriminate H.
Qed.

(** The gate as the button computes it: for every weight triple the save
    action is enabled exactly when no update is in flight and the test
    [|sum - 1.0| > 0.01], evaluated in binary64, is false.  The weights
    [{0.4, 0.3, 0.3}] pass the tolerance and enable the action; the weights
    [{0.4, 0.3, 0.25}] sum to 0.95, fail the tolerance and disable the
    action. *)
Theorem priority_weight_gate (updating : bool) (p : RulePriorities) :
  let pass := mkRulePriorities lit_0_4 lit_0_3 lit_0_3 in
  let fail := mkRulePriorities lit_0_4 lit_0_3 lit_0_25 in
  saveEnabled updating p
  = negb updating
    && (f64_le (deviation p) lit_0_01 || f64_is_nan (deviation p))
  /\ totalWeight pass = lit_1_0
  /\ f64_le (deviation pass) lit_0_01 = true
  /\ saveEnabled false pass = true
  /\ totalWeight fail = f64_div (f64_of_Z 95) (f64_of_Z 100)
  /\ f64_le (deviation fail) lit_0_01 = false
  /\ saveDisabled updating fail = true.
Proof.
  cbv zeta. split.
  - unfold saveEnabled, saveDisabled. rewrite negb_orb.
    rewrite (f64_not_gt (deviation p) lit_0_01 eq_refl). reflexivity.
  - repeat split; try (vm_compute; reflexivity).
    unfold saveDisabled.
    replace (f64_gt _ lit_0_01) with true by (vm_compute; reflexivity).
    apply orb_true_r.
Qed.

(** The button is blocked by the same test that shows the warning. *)
Lemma saveDisabled_warning (updating : bool) (p : RulePriorities) :
  saveDisabled updating p = updating || weightWarning p.
Proof. reflexivity. Qed.

(** For finite weights the deviation is a number and the gate is the
    plain tolerance test of the claim: the save action is enabled exactly
    when no update is in flight and [|sum - 1.0| <= 0.01]. *)
Corollary priority_weight_gate_finite (updating : bool) (p : RulePriorities) :
  f64_is_finite (priorityLevelWeight p) = true ->
  f64_is_finite (fairnessWeight p) = true ->
  f64_is_finite (costWeight p) = true ->
  saveEnabled updating p = negb updating && f64_le (deviation p) lit_0_01.
Proof.
  intros Ha Hb Hc. unfold saveEnabled, saveDisabled. rewrite negb_orb.
  rewrite (f64_not_gt (deviation p) lit_0_01 eq_refl).
  rewrite (deviation_not_nan p Ha Hb Hc), orb_false_r. reflexivity.
Qed.

(* ===================================================================== *)
(** * The data store: invariants and compositions *)
(* ===================================================================== *)

Lemma lists_present_insert {T : Type} (state : DataStore.t T)
    (entity : EntityType) (l : list T) :
  lists_present state ->
  lists_present (with_entities
                   (<[entityName entity := l]> (DataStore.entities state))
                   state).
Proof.
  intros H e. simpl.
  destruct (decide (entityName entity = entityName e)) as [E | Hne].
  - rewrite E, lookup_insert_eq. eauto.
  - rewrite lookup_insert_ne by exact Hne. apply H.
Qed.

Lemma dispatch_keeps_lists (action : DataAction) (state : DataStore.t Item) :
  lists_present state ->
  exists state', dispatch action state = Normal state' /\ lists_present state'.
Proof.
  intros H.
  destruct action as [e | e d | b | err | f | u | it | e d | e id d | e id |];
    simpl; try (eexists; split; [reflexivity | exact H]).
  - eexists. split; [reflexivity |]. apply lists_present_insert. exact H.
  - unfold addEntity. destruct (H e) as [items ->].
    eexists. split; [reflexivity |]. apply lists_present_insert. exact H.
  - unfold updateEntityInStore. destruct (H e) as [items ->].
    eexists. split; [reflexivity |]. apply lists_present_insert. exact H.
  - unfold removeEntity. destruct (H e) as [items ->].
    eexists. split; [reflexivity |]. apply lists_present_insert. exact H.
Qed.

Lemma run_keeps_lists (actions : list DataAction) (state : DataStore.t Item) :
  lists_present state ->
  exists state', run actions state = Normal state' /\ lists_present state'.
Proof.
  revert state. induction actions as [| a rest IH]; intros state H; simpl.
  - eauto.
  - destruct (dispatch_keeps_lists a state H) as (s1 & -> & H1).
    apply IH. exact H1.
Qed.

Lemma initialDataStore_lists : lists_present initialDataStore.
Proof. intros []; simpl; eexists; reflexivity. Qed.

(** X1: whatever actions are dispatched on the store, starting from its
    initial state, none of them throws, and the lists of the three entity
    types are still present afterwards. *)
Theorem data_store_never_throws (actions : list DataAction) :
  exists state : DataStore.t Item,
    run actions initialDataStore = Normal state
    /\ (forall entity : EntityType,
          is_Some (DataStore.entities state !! entityName entity)).
Proof. apply run_keeps_lists. apply initialDataStore_lists. Qed.

Lemma with_entities_same {T : Type} (state : DataStore.t T) :
  with_entities (DataStore.entities state) state = state.
Proof. destruct state. reflexivity. Qed.

Lemma filter_none_has_id (id : string) (items : list Item) :
  Forall (fun item => has_id id item = false) items ->
  List.filter (fun item => negb (has_id id item)) items = items.
Proof.
  induction 1 as [| item items H _ IH]; simpl.
  - reflexivity.
  - rewrite H. simpl. rewrite IH. reflexivity.
Qed.

Lemma map_none_has_id (id : string) (data : Item) (items : list Item) :
  Forall (fun item => has_id id item = false) items ->
  map (fun item => if has_id id item then spread item data else item) items
  = items.
Proof.
  induction 1 as [| item items H _ IH]; simpl.
  - reflexivity.
  - rewrite H, IH. reflexivity.
Qed.

(** X2: adding a record and then removing it by its ID gives the store
    back, provided no record of that list already had this ID. *)
Theorem add_then_remove_restores (entity : EntityType) (id : string)
    (data : Item) (items : list Item) (state : DataStore.t Item) :
  DataStore.entities state !! entityName entity = Some items ->
  data !! "id" = Some (JStr id) ->
  Forall (fun item => has_id id item = false) items ->
  exists added,
    addEntity entity data state = Normal added
    /\ DataStore.entities added !! entityName entity = Some (data :: items)
    /\ removeEntity entity id added = Normal state.
Proof.
  intros Hlist Hid Hfresh. unfold addEntity. rewrite Hlist.
  eexists. split; [reflexivity |]. split.
  - simpl. apply lookup_insert_eq.
  - unfold removeEntity. simpl. rewrite lookup_insert_eq. simpl.
    unfold has_id at 1. rewrite Hid, String.eqb_refl. simpl.
    rewrite filter_none_has_id by exact Hfresh.
    rewrite insert_insert_eq, insert_id by exact Hlist.
    f_equal. destruct state. reflexivity.
Qed.

Lemma add_then_remove_restores_witness :
  exists added,
    addEntity tasks {[ "id" := JStr "t-1" ]} initialDataStore = Normal added
    /\ DataStore.entities added !! "tasks" = Some [{[ "id" := JStr "t-1" ]}]
    /\ removeEntity tasks "t-1" added = Normal initialDataStore.
Proof.
  apply (add_then_remove_restores tasks "t-1" {[ "id" := JStr "t-1" ]} []
           initialDataStore); [reflexivity | reflexivity | constructor].
Defined.

(** X3: the store finds a record by its string [id] only.  When no record
    of the list carries the given ID (for instance because the records only
    have a numeric [TaskID], or a numeric [id]), [updateEntity] and
    [removeEntity] leave the whole store unchanged, without any error. *)
Theorem unknown_id_changes_nothing (entity : EntityType) (id : string)
    (data : Item) (items : list Item) (state : DataStore.t Item) :
  DataStore.entities state !! entityName entity = Some items ->
  Forall (fun item => item !! "id" <> Some (JStr id)) items ->
  updateEntityInStore entity id data state = Normal state
  /\ removeEntity entity id state = Normal state.
Proof.
  intros Hlist Hnone.
  assert (Hfalse : Forall (fun item => has_id id item = false) items).
  { eapply Forall_impl; [exact Hnone |]. intros item H. unfold has_id.
    destruct (item !! "id") as [[| | | | s |] |] eqn:E; try reflexivity.
    apply String.eqb_neq. intros ->. apply H. exact E. }
  unfold updateEntityInStore, removeEntity. rewrite Hlist.
  rewrite map_none_has_id, filter_none_has_id by exact Hfalse.
  rewrite insert_id by exact Hlist.
  rewrite with_entities_same. auto.
Qed.

Lemma unknown_id_changes_nothing_witness :
  let record : Item := {[ "TaskID" := JNum 7; "id" := JNum 7 ]} in
  let state := setEntities tasks [record] initialDataStore in
  updateEntityInStore tasks "7" {[ "TaskTitle" := JStr "x" ]} state
  = Normal state
  /\ removeEntity tasks "7" state = Normal state.
Proof.
  cbv zeta.
  apply (unknown_id_changes_nothing tasks "7" {[ "TaskTitle" := JStr "x" ]}
           [{[ "TaskID" := JNum 7; "id" := JNum 7 ]}]).
  - reflexivity.
  - constructor; [| constructor]. vm_compute. discriminate.
Defined.

Lemma spread_assoc (a b c : gmap string jsval) :
  spread (spread a b) c = spread a (spread b c).
Proof. unfold spread. apply (assoc_L (∪)). Qed.

Lemma has_id_spread (id : string) (item data : Item) :
  data !! "id" = None -> has_id id (spread item data) = has_id id item.
Proof.
  intros H. unfold has_id. rewrite spread_lookup, H. reflexivity.
Qed.

(** X4: two updates of the same record merge into one, the later keys
    winning, as long as the first update does not rewrite the [id]. *)
Theorem updates_compose (entity : EntityType) (id : string)
    (first second : Item) (items : list Item) (state : DataStore.t Item) :
  DataStore.entities state !! entityName entity = Some items ->
  first !! "id" = None ->
  exists once,
    updateEntityInStore entity id first state = Normal once
    /\ updateEntityInStore entity id second once
       = updateEntityInStore entity id (spread first second) state.
Proof.
  intros Hlist Hfirst. unfold updateEntityInStore. rewrite Hlist.
  eexists. split; [reflexivity |]. simpl. rewrite lookup_insert_eq.
  rewrite insert_insert_eq. f_equal. unfold with_entities. simpl.
  f_equal. f_equal.
  rewrite map_map. apply map_ext. intros item.
  destruct (has_id id item) eqn:E.
  - rewrite has_id_spread, E by exact Hfirst. apply spread_assoc.
  - rewrite E. reflexivity.
Qed.

Lemma updates_compose_witness :
  let record : Item := {[ "id" := JStr "t-1"; "Status" := JStr "pending" ]} in
  let state := setEntities tasks [record] initialDataStore in
  exists once,
    updateEntityInStore tasks "t-1" {[ "Status" := JStr "in_progress" ]} state
    = Normal once
    /\ updateEntityInStore tasks "t-1" {[ "Status" := JStr "completed" ]} once
       = updateEntityInStore tasks "t-1"
           (spread {[ "Status" := JStr "in_progress" ]}
                   {[ "Status" := JStr "completed" ]}) state.
Proof.
  cbv zeta.
  apply (updates_compose tasks "t-1" {[ "Status" := JStr "in_progress" ]}
           {[ "Status" := JStr "completed" ]}
           [{[ "id" := JStr "t-1"; "Status" := JStr "pending" ]}]);
    reflexivity.
Defined.

(** X5: filter updates accumulate, a later update overriding an earlier
    one key by key, and each of them restarts at page 1; [clearFilters]
    then forgets all of them and also puts the page size back to 50 and
    the totals to 0, whatever [setPagination] had stored. *)
Theorem filters_accumulate_until_cleared
    (T : Type) (first second : gmap string jsval)
    (update : PartialPagination.t) (state : DataStore.t T) :
  setFilters second (setFilters first state)
  = setFilters (spread first second) state
  /\ Pagination.page
       (DataStore.pagination (setFilters second (setPagination update state)))
     = 1%Z
  /\ Pagination.limit
       (DataStore.pagination (setFilters second (setPagination update state)))
     = default (Pagination.limit (DataStore.pagination state))
               (PartialPagination.limit update)
  /\ clearFilters (setPagination update (setFilters first state))
     = clearFilters state
  /\ DataStore.filters (clearFilters state) = ∅
  /\ DataStore.pagination (clearFilters state) = Pagination.mk 1 50 0 0.
Proof.
  repeat split.
  unfold setFilters. simpl. f_equal. apply spread_assoc.
Qed.

(* ===================================================================== *)
(** * The pager of the entity page *)
(* ===================================================================== *)

(** X6: while the current page lies between 1 and the page count, the two
    buttons keep it there: Previous does nothing on page 1, Next does
    nothing on the last page, and otherwise they move by exactly one page;
    the page size and the totals of the store are not touched. *)
Theorem pager_stays_in_range
    (T U : Type) (state : DataStore.t T) (entityData : PaginatedResponse.t U)
    (pages : Z) :
  PaginatedResponse.totalPages entityData = Int pages ->
  (1 <= Pagination.page (DataStore.pagination state) <= pages)%Z ->
  let page := Pagination.page (DataStore.pagination state) in
  let before := DataStore.pagination (clickPrevious state) in
  let after := DataStore.pagination (clickNext entityData state) in
  (1 <= Pagination.page before <= pages)%Z
  /\ (1 <= Pagination.page after <= pages)%Z
  /\ Pagination.page before = (if (page =? 1)%Z then page else page - 1)%Z
  /\ Pagination.page after = (if (page =? pages)%Z then page else page + 1)%Z
  /\ Pagination.limit before = Pagination.limit (DataStore.pagination state)
  /\ Pagination.limit after = Pagination.limit (DataStore.pagination state)
  /\ Pagination.total after = Pagination.total (DataStore.pagination state).
Proof.
  intros Hpages Hrange. cbv zeta.
  unfold clickPrevious, clickNext, previousDisabled, nextDisabled, number_is.
  rewrite Hpages.
  destruct (Z.eqb_spec (Pagination.page (DataStore.pagination state)) 1);
    destruct (Z.eqb_spec (Pagination.page (DataStore.pagination state)) pages);
    simpl; repeat split; lia.
Qed.

Lemma pager_stays_in_range_witness :
  let state := setPagination (PartialPagination.mk (Some 3%Z) None None None)
                 initialDataStore in
  let entityData :=
    getEntities tasks 3 50
      (Envelope true (Some [7; 8]%nat)
         (Some (BackendPagination.mk 3 50 102 3))) in
  Pagination.page (DataStore.pagination (clickPrevious state)) = 2%Z
  /\ Pagination.page (DataStore.pagination (clickNext entityData state)) = 3%Z.
Proof.
  cbv zeta.
  destruct (pager_stays_in_range _ _
              (setPagination (PartialPagination.mk (Some 3%Z) None None None)
                 initialDataStore)
              (getEntities tasks 3 50
                 (Envelope true (Some [7; 8]%nat)
                    (Some (BackendPagination.mk 3 50 102 3))))
              3 eq_refl ltac:(simpl; lia))
    as (_ & _ & Hprev & Hnext & _).
  split; [exact Hprev | exact Hnext].
Defined.

(** X7: the pager does not clamp.  When the response in hand has more
    than one page, so that the pager is rendered, and the page kept in the
    store is beyond that page count (the store keeps the page while the
    result set shrinks), Next is still enabled and moves one page further
    away.  With a page count of 1 or less no pager is rendered and the
    page cannot be moved at all. *)
Theorem pager_does_not_clamp
    (T U : Type) (state : DataStore.t T) (entityData : PaginatedResponse.t U)
    (pages : Z) :
  PaginatedResponse.totalPages entityData = Int pages ->
  (pages < Pagination.page (DataStore.pagination state))%Z ->
  ((1 < pages)%Z ->
   exists pager : Pager.t T,
     renderPager (Some entityData) state = Some pager
     /\ Pager.nextIsDisabled pager = false
     /\ Pagination.page (DataStore.pagination (Pager.afterNext pager))
        = (Pagination.page (DataStore.pagination state) + 1)%Z
     /\ (pages < Pagination.page
                    (DataStore.pagination (Pager.afterNext pager)))%Z)
  /\ ((pages <= 1)%Z -> renderPager (Some entityData) state = None).
Proof.
  intros Hpages Hbeyond.
  assert (Hen : nextDisabled (DataStore.pagination state) entityData = false).
  { unfold nextDisabled, number_is. rewrite Hpages. apply Z.eqb_neq. lia. }
  unfold renderPager, pagerVisible. rewrite Hpages. simpl. split.
  - intros Hmany. apply Z.ltb_lt in Hmany. rewrite Hmany.
    eexists. split; [reflexivity |]. simpl.
    split; [exact Hen |]. unfold clickNext. rewrite Hen. simpl.
    split; [reflexivity | lia].
  - intros Hone. apply Z.ltb_ge in Hone. rewrite Hone. reflexivity.
Qed.

Lemma pager_does_not_clamp_witness :
  let state := setPagination (PartialPagination.mk (Some 5%Z) None None None)
                 initialDataStore in
  let entityData :=
    getEntities tasks 5 50
      (Envelope true (Some [7; 8]%nat)
         (Some (BackendPagination.mk 5 50 60 2))) in
  exists pager : Pager.t Item,
    renderPager (Some entityData) state = Some pager
    /\ Pager.nextIsDisabled pager = false
    /\ Pagination.page (DataStore.pagination (Pager.afterNext pager)) = 6%Z.
Proof.
  cbv zeta.
  destruct (pager_does_not_clamp _ _
              (setPagination (PartialPagination.mk (Some 5%Z) None None None)
                 initialDataStore)
              (getEntities tasks 5 50
                 (Envelope true (Some [7; 8]%nat)
                    (Some (BackendPagination.mk 5 50 60 2))))
              2 eq_refl ltac:(simpl; lia)) as [Hshown _].
  destruct (Hshown ltac:(lia)) as (pager & Hrender & Hen & Hpage & _).
  exists pager. split; [exact Hrender |]. split; [exact Hen | exact Hpage].
Defined.

Lemma ceil_div_pos (a b : Z) :
  (0 < b)%Z -> ceil_div a b = Int (- ((- a) / b))%Z.
Proof.
  intros H. unfold ceil_div.
  destruct (Z.eqb_spec b 0); [lia | reflexivity].
Qed.

(** X8: the "Showing a to b of n results" line is consistent on every
    page within range: with a positive page size, on a page between 1
    and [Math.ceil(total / limit)], the first shown index is at least 1, not
    after the last one, the last one is at most the total, and at most
    [limit] records are announced. *)
Theorem showing_range_is_consistent
    (T : Type) (pagination : Pagination.t) (entityData : PaginatedResponse.t T)
    (pages : Z) :
  (0 < Pagination.limit pagination)%Z ->
  ceil_div (PaginatedResponse.total entityData) (Pagination.limit pagination)
  = Int pages ->
  (1 <= Pagination.page pagination <= pages)%Z ->
  (1 <= showingFrom pagination)%Z
  /\ (showingFrom pagination <= showingTo pagination entityData)%Z
  /\ (showingTo pagination entityData <= PaginatedResponse.total entityData)%Z
  /\ (showingTo pagination entityData - showingFrom pagination + 1
      <= Pagination.limit pagination)%Z.
Proof.
  intros Hlimit Hceil Hrange.
  rewrite ceil_div_pos in Hceil by exact Hlimit.
  injection Hceil as Hpages.
  unfold showingFrom, showingTo.
  set (p := Pagination.page pagination) in *.
  set (l := Pagination.limit pagination) in *.
  set (n := PaginatedResponse.total entityData) in *.
  assert (Hlow : ((pages - 1) * l < n)%Z).
  { pose proof (Z.mul_div_le (- n) l Hlimit) as H1.
    pose proof (Z.mod_pos_bound (- n) l Hlimit) as H2.
    pose proof (Z.div_mod (- n) l ltac:(lia)) as H3. nia. }
  assert (Hp : ((p - 1) * l <= (pages - 1) * l)%Z) by nia.
  repeat split; nia.
Qed.

Lemma showing_range_is_consistent_witness :
  let pagination := Pagination.mk 3 50 0 0 in
  let entityData :=
    getEntities tasks 3 50
      (Envelope true (Some [7; 8]%nat)
         (Some (BackendPagination.mk 3 50 102 3))) in
  showingFrom pagination = 101%Z /\ showingTo pagination entityData = 102%Z
  /\ (showingFrom pagination <= showingTo pagination entityData)%Z.
Proof.
  cbv zeta.
  destruct (showing_range_is_consistent _ (Pagination.mk 3 50 0 0)
              (getEntities tasks 3 50
                 (Envelope true (Some [7; 8]%nat)
                    (Some (BackendPagination.mk 3 50 102 3))))
              3 ltac:(simpl; lia) eq_refl ltac:(simpl; lia))
    as (_ & Hle & _).
  repeat split. exact Hle.
Defined.

(* ===================================================================== *)
(** * The AI-fix page: further properties *)
(* ===================================================================== *)



Lemma handleGenerateFixes_blocks (st : Page.t) :
  let st1 := fst (handleGenerateFixes st) in
  Page.validationErrors st1 = None
  \/ Page.validationErrors st1 = Some []
  \/ Page.isGeneratingFixes st1 = true.
Proof.
  cbv zeta. unfold handleGenerateFixes.
  destruct (Page.validationErrors st) as [[| e rest] |] eqn:Hdata; simpl; auto.
  destruct (Page.isGeneratingFixes st) eqn:Hgen; simpl; auto.
Qed.

Lemma handleGenerateFixes_blocked (st : Page.t) :
  Page.validationErrors st = None
  \/ Page.validationErrors st = Some []
  \/ Page.isGeneratingFixes st = true ->
  exists msg, handleGenerateFixes st = (st, [ToastError msg]).
Proof.
  unfold handleGenerateFixes. intros [-> | [-> | Hgen]]; eauto.
  destruct (Page.validationErrors st) as [[| e rest] |]; eauto.
  rewrite Hgen. eauto.
Qed.

(** X10: a second click on "Generate AI Fixes" sends nothing.  Whatever
    the state, running [handleGenerateFixes] twice in a row makes the
    second run end with an error toast only, and leaves the state of the
    first run; the flag that blocks it is cleared again by both outcomes
    of the request. *)
Theorem generation_is_not_sent_twice (st : Page.t)
    (data_fixes : option (list AIFix.t)) (originals : list ValidationError.t)
    (response_message : option string) :
  let st1 := fst (handleGenerateFixes st) in
  (exists msg, handleGenerateFixes st1 = (st1, [ToastError msg]))
  /\ Page.isGeneratingFixes
       (fst (fixErrors_onSuccess st1 data_fixes originals)) = false
  /\ Page.isGeneratingFixes (fst (fixErrors_onError st1 response_message))
     = false.
Proof.
  cbv zeta. split; [| split; reflexivity].
  apply handleGenerateFixes_blocked. apply handleGenerateFixes_blocks.
Qed.

Lemma getValidationErrors_no_suggestion (entity : EntityType)
    (payload : ValidatePayload) (err : ValidationError.t) :
  In err (getValidationErrors entity payload) ->
  ValidationError.suggested_fix err = JNull.
Proof.
  unfold getValidationErrors.
  destruct (validate_success payload); [| intros []].
  destruct (validate_data payload) as [[errors |] |]; try (intros []).
  rewrite in_map_iff. intros (b & <- & _). reflexivity.
Qed.

(** X11: a validation error as fetched from the backend can never be
    applied: the adapter gives it no suggested fix, so [handleApplyFix]
    answers with "No suggested fix available", sends nothing and changes
    nothing, in every state of the page. *)
Theorem fetched_errors_cannot_be_applied (entity : EntityType)
    (payload : ValidatePayload) (st : Page.t) (err : ValidationError.t) :
  In err (getValidationErrors entity payload) ->
  handleApplyFix st err = (st, [ToastError "No suggested fix available"]).
Proof.
  intros Hin. unfold handleApplyFix.
  rewrite (getValidationErrors_no_suggestion entity payload err Hin).
  reflexivity.
Qed.

Lemma fetched_errors_cannot_be_applied_witness :
  let payload :=
    mkValidatePayload true
      (Some (Some [BackendError.mk (JNum 4) "title" "Title is required"
                     (JStr "error") (JStr "required")])) in
  let st := Page.mk tasks [] ∅ false ∅ None in
  Forall (fun err =>
            handleApplyFix st err
            = (st, [ToastError "No suggested fix available"]))
         (getValidationErrors tasks payload).
Proof.
  cbv zeta. apply List.Forall_forall. intros err Hin.
  exact (fetched_errors_cannot_be_applied tasks _ _ err Hin).
Defined.

Lemma synthesizedId_falsy_row (entity : EntityType) (row : jsval) :
  truthy row = false ->
  synthesizedId entity row = entityName entity ++ "-unknown".
Proof. intros H. rewrite synthesizedId_unfold, H. reflexivity. Qed.

Lemma unknown_id_passes_pattern (entity : EntityType) :
  regex_test synthesizedIdPattern (entityName entity ++ "-unknown") = false
  /\ truthy_str (entityName entity ++ "-unknown") = true.
Proof. destruct entity; split; reflexivity. Qed.

(** X12: what the apply guard catches among synthesized IDs.  A fix that
    still carries the ID synthesized for a positive whole row number, up
    to [Number.MAX_SAFE_INTEGER], and has no entry in the map, is always
    rejected; a fix that carries the ID synthesized for a missing (falsy)
    row, [<entity>-unknown], is not recognised by the pattern: with a
    truthy suggested value the page sends
    [PATCH /data/<selected entity>/<entity>-unknown] with the body
    [{field: suggested value}]. *)
Theorem guard_catches_numbered_rows_only
    (st : Page.t) (entity : EntityType) (p : positive) (row : jsval)
    (numbered unknown : ValidationError.t) :
  (Z.pos p <= MAX_SAFE_INTEGER)%Z ->
  ValidationError.id numbered = synthesizedId entity (JNum (Zpos p)) ->
  mappedId (Page.validationToFixIdMap st) numbered = None ->
  ValidationError.id unknown = synthesizedId entity row ->
  truthy row = false ->
  mappedId (Page.validationToFixIdMap st) unknown = None ->
  truthy (ValidationError.suggested_fix unknown) = true ->
  (exists msg, handleApplyFix st numbered = (st, [ToastError msg]))
  /\ (exists request : Request,
        handleApplyFix st unknown = (st, [Send request])
        /\ req_method request = PATCH
        /\ req_url request
           = "/data/" ++ entityName (Page.selectedEntity st) ++ "/"
             ++ entityName entity ++ "-unknown"
        /\ req_body request
           = PatchBody [(ValidationError.field unknown,
                         ValidationError.suggested_fix unknown)]).
Proof.
  intros _ Hnum Hmap1 Hunk Hrow Hmap2 Hsugg. split.
  - unfold handleApplyFix.
    destruct (truthy (ValidationError.suggested_fix numbered)); simpl;
      [| eauto].
    rewrite (actualRecordId_unmapped _ _ Hmap1), String.eqb_refl, Hnum.
    destruct (synthesizedId_matches_guard entity p) as [-> _].
    rewrite orb_true_r. eauto.
  - exists (updateEntity (Page.selectedEntity st)
              (entityName entity ++ "-unknown")
              [(ValidationError.field unknown,
                ValidationError.suggested_fix unknown)]).
    split; [| repeat split].
    unfold handleApplyFix. rewrite Hsugg. simpl.
    rewrite (actualRecordId_unmapped _ _ Hmap2), String.eqb_refl, Hunk.
    rewrite (synthesizedId_falsy_row entity row Hrow).
    destruct (unknown_id_passes_pattern entity) as [-> ->]. reflexivity.
Qed.

Lemma guard_catches_numbered_rows_only_witness :
  let st := Page.mk clients [] ∅ false ∅ None in
  let numbered := ValidationError.mk "tasks-12" "title" JNull "bad"
                    (JStr "Untitled") None JUndefined JUndefined JUndefined in
  let unknown := ValidationError.mk "tasks-unknown" "title" JNull "bad"
                   (JStr "Untitled") None JUndefined JUndefined JUndefined in
  (exists msg, handleApplyFix st numbered = (st, [ToastError msg]))
  /\ handleApplyFix st unknown
     = (st, [Send (mkRequest PATCH "/data/clients/tasks-unknown"
                     (PatchBody [("title", JStr "Untitled")]))]).
Proof.
  cbv zeta.
  destruct (guard_catches_numbered_rows_only
              (Page.mk clients [] ∅ false ∅ None) tasks 12 JNull
              (ValidationError.mk "tasks-12" "title" JNull "bad"
                 (JStr "Untitled") None JUndefined JUndefined JUndefined)
              (ValidationError.mk "tasks-unknown" "title" JNull "bad"
                 (JStr "Untitled") None JUndefined JUndefined JUndefined)
              ltac:(unfold MAX_SAFE_INTEGER; lia)
              ltac:(reflexivity) ltac:(reflexivity) ltac:(reflexivity)
              ltac:(reflexivity) ltac:(reflexivity) ltac:(reflexivity))
    as [Hrejected (request & Hsend & Hmethod & Hurl & Hbody)].
  split; [exact Hrejected |].
  etransitivity; [exact Hsend |].
  destruct request as [m u b]. simpl in Hmethod, Hurl, Hbody.
  rewrite Hmethod, Hurl, Hbody. reflexivity.
Defined.

(** X13: every request that [handleApplyFix] sends is guarded.  If a
    request is among its effects, it is its only effect, the state is
    unchanged, the suggested value is truthy, and the request is
    [PATCH /data/<selected entity>/<id>] with the body
    [{field: suggested value}], where the ID is non-empty and is either
    taken from the reconciliation map or is the fix's own ID not matching
    [/^(clients|workers|tasks)-\d+$/]. *)
Theorem applied_requests_are_guarded
    (st : Page.t) (error : ValidationError.t) (request : Request) :
  In (Send request) (snd (handleApplyFix st error)) ->
  let actualId := actualRecordId (Page.validationToFixIdMap st) error in
  handleApplyFix st error = (st, [Send request])
  /\ req_method request = PATCH
  /\ req_url request
     = "/data/" ++ entityName (Page.selectedEntity st) ++ "/" ++ actualId
  /\ req_body request
     = PatchBody [(ValidationError.field error,
                   ValidationError.suggested_fix error)]
  /\ truthy (ValidationError.suggested_fix error) = true
  /\ actualId <> ""
  /\ (mappedId (Page.validationToFixIdMap st) error = Some actualId
      \/ (actualId = ValidationError.id error
          /\ regex_test synthesizedIdPattern actualId = false)).
Proof.
  cbv zeta. unfold handleApplyFix.
  destruct (truthy (ValidationError.suggested_fix error)) eqn:Hs; simpl.
  - destruct (truthy_str (actualRecordId _ error)) eqn:Hne; simpl.
    + destruct (String.eqb_spec
                  (actualRecordId (Page.validationToFixIdMap st) error)
                  (ValidationError.id error)) as [E | Hdiff]; simpl.
      * destruct (regex_test synthesizedIdPattern (ValidationError.id error))
          eqn:Hp; simpl.
        -- intros [H | []]. discriminate H.
        -- intros [[= <-] | []]. repeat split.
           ++ unfold truthy_str in Hne. intros E0. rewrite E0 in Hne.
              discriminate Hne.
           ++ right. rewrite E. auto.
      * intros [[= <-] | []]. repeat split.
        -- unfold truthy_str in Hne. intros E0. rewrite E0 in Hne.
           discriminate Hne.
        -- left. unfold actualRecordId in *.
           destruct (mappedId (Page.validationToFixIdMap st) error);
             [reflexivity | congruence].
    + intros [H | []]. discriminate H.
  - intros [H | []]. discriminate H.
Qed.

Lemma applied_requests_are_guarded_witness :
  let st := Page.mk tasks [] ∅ false {[ "tasks-4" := "12" ]} None in
  let error := ValidationError.mk "tasks-4" "title" JNull "bad"
                 (JStr "Untitled") None JUndefined JUndefined JUndefined in
  handleApplyFix st error
  = (st, [Send (mkRequest PATCH "/data/tasks/12"
                  (PatchBody [("title", JStr "Untitled")]))]).
Proof.
  cbv zeta.
  assert (Hsent :
    In (Send (updateEntity tasks "12" [("title", JStr "Untitled")]))
       (snd (handleApplyFix
               (Page.mk tasks [] ∅ false {[ "tasks-4" := "12" ]} None)
               (ValidationError.mk "tasks-4" "title" JNull "bad"
                  (JStr "Untitled") None JUndefined JUndefined JUndefined)))).
  { vm_compute. left. reflexivity. }
  destruct (applied_requests_are_guarded _ _ _ Hsent) as (H & _).
  exact H.
Defined.

(** X14: the outcome of a generation, entry by entry.  The map sends a
    key to the [rowId] of the last fix of the response whose matching
    original error has this key as its ID, and holds nothing else, so that
    each of its keys is the ID of an original error; the working list is
    replaced by one entry per fix, in the order of the response, each
    carrying the fix's [rowId] as its ID; the fixed set, the selected
    entity and the fetched errors are kept. *)
Theorem reconciliation_outcome
    (st : Page.t) (data_fixes : option (list AIFix.t))
    (originals : list ValidationError.t) (k : string) :
  let fixes := match data_fixes with Some l => l | None => [] end in
  let st' := fst (fixErrors_onSuccess st data_fixes originals) in
  Page.validationToFixIdMap st' !! k
  = AIFix.rowId <$> lastFixFor originals k fixes
  /\ dom (Page.validationToFixIdMap st')
     ⊆ list_to_set (map ValidationError.id originals)
  /\ map ValidationError.id (Page.errors st') = map AIFix.rowId fixes
  /\ map ValidationError.suggested_fix (Page.errors st')
     = map AIFix.suggestedValue fixes
  /\ Page.fixedItems st' = Page.fixedItems st
  /\ Page.selectedEntity st' = Page.selectedEntity st
  /\ Page.validationErrors st' = Page.validationErrors st.
Proof.
  cbv zeta. unfold fixErrors_onSuccess. simpl.
  split; [apply reconcile_lookup |].
  split.
  { intros key Hkey. apply elem_of_dom in Hkey as [v Hv].
    apply reconcile_keys in Hv as (e & Hin & <-).
    apply elem_of_list_to_set, list_elem_of_In, in_map. exact Hin. }
  rewrite reconcile_list, !map_map. auto.
Qed.



(* ===================================================================== *)
(** * The upload service and the upload store *)
(* ===================================================================== *)

Lemma collect_names (now : string) (entries : list (string * EntityRecord.t)) :
  map UploadFile.filename (collectFiles now entries)
  = omap (fun entry : string * EntityRecord.t =>
            listedName (EntityRecord.info (snd entry))) entries
  /\ map UploadStatus.filename (collectStatuses entries)
     = omap (fun entry : string * EntityRecord.t =>
               listedName (EntityRecord.info (snd entry))) entries.
Proof.
  unfold collectFiles, collectStatuses.
  induction entries as [| entry entries [IH1 IH2]]; [split; reflexivity |].
  cbn [omap list_omap]. 
  destruct (listedName (EntityRecord.info (snd entry))); cbn [map].
  - split; f_equal; assumption.
  - split; assumption.
Qed.

Lemma collectFiles_completed (now : string)
    (entries : list (string * EntityRecord.t)) :
  List.Forall (fun f => UploadFile.status f = completed
                        /\ UploadFile.filename f <> ""
                        /\ UploadFile.size f = 0%Z)
              (collectFiles now entries).
Proof.
  unfold collectFiles. induction entries as [| entry entries IH]; simpl.
  - constructor.
  - destruct (listedName (EntityRecord.info (snd entry))) as [name |] eqn:E;
      simpl; [| exact IH].
    constructor; [| exact IH]. simpl. repeat split.
    unfold listedName in E.
    destruct (EntityInfo.fileName _) as [n |]; [| discriminate].
    destruct (EntityInfo.hasData _); simpl in E; [| discriminate].
    destruct (truthy_str n) eqn:Hn; [| discriminate].
    injection E as <-. intros ->. discriminate Hn.
Qed.

Lemma collectStatuses_completed (entries : list (string * EntityRecord.t)) :
  List.Forall (fun s => UploadStatus.status s = completed
                        /\ UploadStatus.progress s = 100%Z)
              (collectStatuses entries).
Proof.
  unfold collectStatuses. induction entries as [| entry entries IH]; simpl.
  - constructor.
  - destruct (listedName (EntityRecord.info (snd entry))); simpl;
      [constructor; [split; reflexivity | exact IH] | exact IH].
Qed.

(** X16: the two listings built from the status endpoint agree.  On every
    payload they reject together or resolve together, and then they name
    the same files in the same order; every listed file is [completed],
    has a non-empty name and the size 0, every listed status is
    [completed] with progress 100. *)
Theorem listings_agree (now : string) (payload : FullStatusPayload) :
  (getUploadedFiles now payload = Rejected "TypeError"
   /\ getAllUploadStatuses payload = Rejected "TypeError")
  \/ (exists files statuses,
        getUploadedFiles now payload = Resolved files
        /\ getAllUploadStatuses payload = Resolved statuses
        /\ map UploadFile.filename files
           = map UploadStatus.filename statuses
        /\ List.Forall (fun f => UploadFile.status f = completed
                                 /\ UploadFile.filename f <> ""
                                 /\ UploadFile.size f = 0%Z) files
        /\ List.Forall (fun s => UploadStatus.status s = completed
                                 /\ UploadStatus.progress s = 100%Z)
                       statuses).
Proof.
  unfold getUploadedFiles, getAllUploadStatuses.
  destruct (full_success payload).
  - destruct (full_data payload) as [entities |]; [right | left; auto].
    eexists _, _. split; [reflexivity |]. split; [reflexivity |].
    destruct (collect_names now
                (match entities with Some l => l | None => [] end))
      as [-> ->].
    split; [reflexivity |]. split.
    + apply collectFiles_completed.
    + apply collectStatuses_completed.
  - right. exists [], []. repeat split; constructor.
Qed.

Lemma scanEntities_result (filename : string)
    (entries : list (string * EntityInfo.t)) (s : UploadStatus.t) :
  scanEntities filename entries = Some s ->
  UploadStatus.filename s = filename
  /\ ((UploadStatus.status s = completed /\ UploadStatus.progress s = 100%Z
       /\ exists name info, In (name, info) entries
                            /\ EntityInfo.hasData info = true)
      \/ (UploadStatus.status s = failed /\ UploadStatus.progress s = 0%Z
          /\ UploadStatus.message s = Some "Processing failed"
          /\ exists name info,
               In (name, info) entries
               /\ EntityInfo.fileName info = Some filename
               /\ EntityInfo.hasData info = false)).
Proof.
  induction entries as [| [name info] rest IH]; simpl; [discriminate |].
  destruct (EntityInfo.hasData info) eqn:Hd.
  - rewrite orb_true_r. intros [= <-]. simpl. split; [reflexivity |].
    left. repeat split. exists name, info. auto.
  - rewrite orb_false_r. destruct (fileName_is info filename) eqn:Hf.
    + intros [= <-]. simpl. split; [reflexivity |]. right. repeat split.
      exists name, info. repeat split; auto.
      unfold fileName_is in Hf.
      destruct (EntityInfo.fileName info) as [f |]; [| discriminate].
      apply String.eqb_eq in Hf. congruence.
    + intros H. destruct (IH H) as [Hn [Hc | Hfail]].
      * split; [exact Hn |]. left.
        destruct Hc as (? & ? & n & i & Hin & Hi). repeat split; auto.
        exists n, i. auto.
      * split; [exact Hn |]. right.
        destruct Hfail as (? & ? & ? & n & i & Hin & Hi).
        repeat split; auto. exists n, i. auto.
Qed.

(** X17: [getUploadStatus] only ever answers [completed] with progress
    100 or [failed] with progress 0, for the file name it was asked; it
    answers [failed] only when the status map holds an entity that carries
    this very file name and has no data. *)
Theorem getUploadStatus_range (filename : string) (payload : StatusPayload)
    (s : UploadStatus.t) :
  getUploadStatus filename payload = Resolved s ->
  UploadStatus.filename s = filename
  /\ ((UploadStatus.status s = completed /\ UploadStatus.progress s = 100%Z)
      \/ (UploadStatus.status s = failed /\ UploadStatus.progress s = 0%Z
          /\ exists entries name info,
               status_data payload = Some (Some entries)
               /\ In (name, info) entries
               /\ EntityInfo.fileName info = Some filename
               /\ EntityInfo.hasData info = false)).
Proof.
  unfold getUploadStatus.
  destruct (status_success payload); [| intros [= <-]; simpl; auto].
  destruct (status_data payload) as [entities |]; [| discriminate].
  destruct (scanEntities filename _) as [found |] eqn:E.
  - intros [= <-]. destruct (scanEntities_result _ _ _ E) as [Hn [Hc | Hf]].
    + split; [exact Hn |]. left. tauto.
    + split; [exact Hn |]. right.
      destruct Hf as (? & ? & _ & n & i & Hin & Hi).
      destruct entities as [l |]; [| destruct Hin].
      repeat split; auto. exists l, n, i. auto.
  - intros [= <-]. simpl. auto.
Qed.

Lemma getUploadStatus_range_witness :
  let payload :=
    mkStatusPayload true
      (Some (Some [("clients", EntityInfo.mk (Some "c.csv") false (JNum 0))])) in
  exists s, getUploadStatus "c.csv" payload = Resolved s
            /\ UploadStatus.status s = failed
            /\ UploadStatus.progress s = 0%Z.
Proof.
  cbv zeta. eexists. split; [reflexivity |].
  destruct (getUploadStatus_range "c.csv"
              (mkStatusPayload true
                 (Some (Some [("clients",
                               EntityInfo.mk (Some "c.csv") false (JNum 0))])))
              _ eq_refl) as [_ [[H _] | [H1 [H2 _]]]].
  - discriminate H.
  - split; [exact H1 | exact H2].
Defined.

Lemma scanEntities_skip (filename : string)
    (before rest : list (string * EntityInfo.t)) :
  Forall (fun entry : string * EntityInfo.t =>
            EntityInfo.hasData (snd entry) = false
            /\ EntityInfo.fileName (snd entry) <> Some filename) before ->
  scanEntities filename (List.app before rest) = scanEntities filename rest.
Proof.
  induction 1 as [| [name info] before [Hd Hf] _ IH]; simpl; [reflexivity |].
  simpl in Hd, Hf. rewrite Hd, orb_false_r.
  assert (E : fileName_is info filename = false).
  { unfold fileName_is. destruct (EntityInfo.fileName info) as [f |];
      [| reflexivity]. apply String.eqb_neq. congruence. }
  rewrite E. exact IH.
Qed.

(** X18: the first entity with data answers for every file.  When an
    entity of the status map has data and no entity before it has data or
    carries the file name asked for, [getUploadStatus] reports [completed]
    with the record count of that entity, whether or not the file name
    belongs to it or to any entity at all. *)
Theorem first_entity_with_data_answers
    (filename name : string) (info : EntityInfo.t)
    (before after : list (string * EntityInfo.t)) :
  EntityInfo.hasData info = true ->
  Forall (fun entry : string * EntityInfo.t =>
            EntityInfo.hasData (snd entry) = false
            /\ EntityInfo.fileName (snd entry) <> Some filename) before ->
  getUploadStatus filename
    (mkStatusPayload true
       (Some (Some (List.app before ((name, info) :: after)))))
  = Resolved
      (UploadStatus.mk filename completed 100
         (Some (toString (EntityInfo.recordCount info)
                ++ " records processed"))).
Proof.
  intros Hdata Hbefore. unfold getUploadStatus. simpl.
  rewrite (scanEntities_skip filename before _ Hbefore). simpl.
  rewrite Hdata, orb_true_r. reflexivity.
Qed.

Lemma first_entity_with_data_answers_witness :
  getUploadStatus "never-uploaded.csv"
    (mkStatusPayload true
       (Some (Some [("clients", EntityInfo.mk None false (JNum 0));
                    ("tasks", EntityInfo.mk (Some "tasks.csv") true (JNum 42))])))
  = Resolved
      (UploadStatus.mk "never-uploaded.csv" completed 100
         (Some "42 records processed")).
Proof.
  apply (first_entity_with_data_answers "never-uploaded.csv" "tasks"
           (EntityInfo.mk (Some "tasks.csv") true (JNum 42))
           [("clients", EntityInfo.mk None false (JNum 0))] []).
  - reflexivity.
  - constructor; [| constructor]. split; [reflexivity | discriminate].
Defined.

Lemma NoDup_fst_filter {A : Type} (f : string * A -> bool)
    (l : list (string * A)) :
  NoDup (map fst l) -> NoDup (map fst (List.filter f l)).
Proof.
  induction l as [| x l IH]; simpl; intros H; [constructor |].
  apply NoDup_cons in H as [Hx Hl].
  destruct (f x); simpl; [| auto].
  apply NoDup_cons. split; [| auto].
  intros Hin. apply Hx. apply list_elem_of_In in Hin.
  apply list_elem_of_In. apply in_map_iff in Hin as (y & Hy & Hin).
  apply in_map_iff. exists y. split; [exact Hy |].
  apply filter_In in Hin. tauto.
Qed.

(** Filtering the entries of a record on [key !== filename] deletes that
    key. *)
Lemma withoutKey_delete {A : Type} (filename : string) (record : gmap string A) :
  withoutKey filename record = delete filename record.
Proof.
  apply map_eq. intros k. apply option_eq. intros v.
  unfold withoutKey.
  rewrite <- elem_of_list_to_map
    by (apply NoDup_fst_filter, NoDup_fst_map_to_list).
  rewrite list_elem_of_In, filter_In, <- list_elem_of_In.
  rewrite elem_of_map_to_list, negb_true_iff. simpl.
  rewrite String.eqb_neq, lookup_delete_Some. intuition congruence.
Qed.

(** X19: [removeFile] forgets a file everywhere and nothing else: its
    entries leave the file list, its progress and its status leave the two
    records, and every other file keeps its entries, its progress and its
    status; the upload flag is not touched. *)
Theorem removeFile_forgets_one_file
    (filename other : string) (file : UploadFile.t) (state : UploadStore.t) :
  let state' := removeFile filename state in
  UploadStore.uploadProgress state' !! other
  = (if decide (other = filename) then None
     else UploadStore.uploadProgress state !! other)
  /\ UploadStore.uploadStatuses state' !! other
     = (if decide (other = filename) then None
        else UploadStore.uploadStatuses state !! other)
  /\ (In file (UploadStore.files state') <->
        In file (UploadStore.files state)
        /\ UploadFile.filename file <> filename)
  /\ UploadStore.isUploading state' = UploadStore.isUploading state.
Proof.
  cbv zeta. unfold removeFile. simpl. rewrite !withoutKey_delete.
  split; [| split; [| split; [| reflexivity]]].
  - destruct (decide (other = filename)) as [-> | Hne].
    + apply lookup_delete_eq.
    + apply lookup_delete_ne. congruence.
  - destruct (decide (other = filename)) as [-> | Hne].
    + apply lookup_delete_eq.
    + apply lookup_delete_ne. congruence.
  - rewrite filter_In, negb_true_iff, String.eqb_neq. reflexivity.
Qed.

(** X20: an upload followed by its deletion gives the store back.  When
    the store knows nothing under a file name, adding a file of that name,
    recording its progress and its status, and then removing the file
    restores the store exactly. *)
Theorem upload_then_delete_restores
    (file : UploadFile.t) (progress : Z) (status : UploadStatus.t)
    (state : UploadStore.t) :
  let filename := UploadFile.filename file in
  Forall (fun f => UploadFile.filename f <> filename)
         (UploadStore.files state) ->
  UploadStore.uploadProgress state !! filename = None ->
  UploadStore.uploadStatuses state !! filename = None ->
  removeFile filename
    (setUploadStatus filename status
       (setUploadProgress filename progress (addFile file state)))
  = state.
Proof.
  cbv zeta. intros Hfiles Hprogress Hstatus.
  unfold removeFile, setUploadStatus, setUploadProgress, addFile. simpl.
  rewrite !withoutKey_delete.
  rewrite !delete_insert_eq, !delete_id by assumption.
  destruct state as [files pr stt up]. simpl in *. f_equal.
  rewrite List.filter_app. simpl. rewrite String.eqb_refl. simpl.
  rewrite app_nil_r.
  induction Hfiles as [| f files Hf _ IH]; simpl; [reflexivity |].
  apply String.eqb_neq in Hf. rewrite Hf. simpl. rewrite IH. reflexivity.
Qed.

Lemma upload_then_delete_restores_witness :
  removeFile "a.csv"
    (setUploadStatus "a.csv" (UploadStatus.mk "a.csv" completed 100 None)
       (setUploadProgress "a.csv" 100
          (addFile (UploadFile.mk "a.csv" "a.csv" 10 "now" completed)
             initialUploadStore)))
  = initialUploadStore.
Proof.
  apply (upload_then_delete_restores
           (UploadFile.mk "a.csv" "a.csv" 10 "now" completed) 100
           (UploadStatus.mk "a.csv" completed 100 None) initialUploadStore);
    [constructor | reflexivity | reflexivity].
Defined.

(** X21: what the upload page makes of the answer.
    - A 2xx response that names the uploaded entity but does not mark it
      processed still resolves: one file is appended at the end of the
      store's file list, with status [failed] and the time of the call,
      the rest of the store is kept, and the page announces a success.
    - A 2xx response with [success: false] adds nothing, and the only
      toast reads "Upload failed", whatever message that response carried.
    - A rejected request (a non-2xx answer) adds nothing either and is
      announced twice: once by the interceptor of [api], once by [onError];
      when the answer carries a non-empty [message], both toasts show
      it. *)
Theorem unprocessed_upload_is_announced
    (now : string) (file : BrowserFile) (entityType : EntityType)
    (otherData : option UploadData) (fileInfo : FileInfo.t)
    (data : UploadData) (message backendMessage : option string)
    (error : TransportError) (state : UploadStore.t) :
  findFileInfo entityType data = Some fileInfo ->
  FileInfo.status fileInfo <> Some "processed" ->
  findProcessingInfo entityType data = None ->
  (exists (listed : UploadFile.t) (state' : UploadStore.t),
     settleUpload now file entityType
       (Resolved (mkUploadPayload true (Some data) message)) state
     = (state',
        [ToastSuccess (entityName entityType ++ " file uploaded successfully!")])
     /\ UploadStore.files state' = List.app (UploadStore.files state) [listed]
     /\ UploadStore.uploadProgress state' = UploadStore.uploadProgress state
     /\ UploadStore.uploadStatuses state' = UploadStore.uploadStatuses state
     /\ UploadStore.isUploading state' = UploadStore.isUploading state
     /\ UploadFile.status listed = failed
     /\ UploadFile.uploadedAt listed = now
     /\ UploadFile.filename listed
        = opt_str_or (FileInfo.originalName fileInfo) (file_name file))
  /\ settleUpload now file entityType
       (Resolved (mkUploadPayload false otherData backendMessage)) state
     = (state, [ToastError "Upload failed"])
  /\ (exists shown : string,
        settleUpload now file entityType (Rejected error) state
        = (state, [ToastError shown; ToastError
                     (opt_str_or (response_data_message error)
                        "Upload failed")])
        /\ forall m : string,
             response_data_message error = Some m -> m <> "" ->
             settleUpload now file entityType (Rejected error) state
             = (state, [ToastError m; ToastError m])).
Proof.
  intros Hfile Hstatus Hproc. split; [| split; [reflexivity |]].
  - unfold settleUpload, uploadFile. simpl. rewrite Hfile, Hproc.
    eexists. eexists. split; [reflexivity |]. simpl.
    do 4 (split; [reflexivity |]).
    split; [| split; reflexivity].
    unfold uploadedStatus. simpl.
    destruct (FileInfo.status fileInfo) as [s |]; [| reflexivity].
    destruct (String.eqb_spec s "processed") as [-> | _];
      [congruence | reflexivity].
  - eexists. split; [reflexivity |].
    intros m Hm Hne. unfold settleUpload, responseErrorInterceptor.
    rewrite Hm. simpl. unfold upload_onError, opt_str_or, str_or.
    rewrite (truthy_str_true m Hne). reflexivity.
Qed.

Lemma unprocessed_upload_is_announced_witness :
  let data :=
    mkUploadData
      (Some [FileInfo.mk "tasks" (Some "tasks.csv") (Some 10%Z) (Some "error")])
      None in
  let earlier := UploadFile.mk "clients.csv" "clients.csv" 7 "before"
                   completed in
  exists state' : UploadStore.t,
    settleUpload "now" (mkBrowserFile "tasks.csv" 10) tasks
      (Resolved (mkUploadPayload true (Some data) None))
      (addFile earlier initialUploadStore)
    = (state', [ToastSuccess "tasks file uploaded successfully!"])
    /\ UploadStore.files state'
       = [earlier; UploadFile.mk "tasks.csv" "tasks.csv" 10 "now" failed].
Proof.
  cbv zeta.
  destruct (unprocessed_upload_is_announced "now"
              (mkBrowserFile "tasks.csv" 10) tasks None
              (FileInfo.mk "tasks" (Some "tasks.csv") (Some 10%Z) (Some "error"))
              (mkUploadData
                 (Some [FileInfo.mk "tasks" (Some "tasks.csv") (Some 10%Z)
                          (Some "error")]) None)
              None None (mkTransportError None None "Network Error")
              (addFile (UploadFile.mk "clients.csv" "clients.csv" 7 "before"
                          completed) initialUploadStore)
              eq_refl ltac:(discriminate) eq_refl)
    as [(listed & state' & Hsettle & Hfiles & _) _].
  exists state'. split; [exact Hsettle |].
  injection Hsettle as <-. reflexivity.
Defined.

(* ===================================================================== *)
(** * The recommendation panel *)
(* ===================================================================== *)

Lemma pow2_ge_1 (n : nat) : (1 <= 2 ^ Z.of_nat n)%Z.
Proof. pose proof (Z.pow_pos_nonneg 2 (Z.of_nat n)). lia. Qed.

(** X22: the waiting time before a retry starts at one second, never
    decreases with the attempt, never exceeds thirty seconds, and is
    thirty seconds from the sixth attempt on; the three retries that the
    policy grants wait 1, 2 and 4 seconds, 7 seconds in all. *)
Theorem retryDelay_is_capped (attemptIndex later : nat) :
  (1000 <= retryDelay attemptIndex <= 30000)%Z
  /\ (retryDelay attemptIndex <= retryDelay (attemptIndex + later))%Z
  /\ retryDelay (5 + attemptIndex) = 30000%Z
  /\ map retryDelay [0; 1; 2]%nat = [1000; 2000; 4000]%Z
  /\ (retryDelay 0 + retryDelay 1 + retryDelay 2 = 7000)%Z.
Proof.
  unfold retryDelay. repeat split; try reflexivity.
  - pose proof (pow2_ge_1 attemptIndex). lia.
  - lia.
  - assert (2 ^ Z.of_nat attemptIndex
            <= 2 ^ Z.of_nat (attemptIndex + later))%Z
      by (apply Z.pow_le_mono_r; lia).
    lia.
  - replace (Z.of_nat (5 + attemptIndex)) with (5 + Z.of_nat attemptIndex)%Z
      by lia.
    rewrite Z.pow_add_r by lia.
    pose proof (pow2_ge_1 attemptIndex).
    change (2 ^ 5)%Z with 32%Z. lia.
Qed.

Lemma all_digits_no_dash (s1 s2 : string) :
  all_digits (s1 ++ String "-" s2) = false.
Proof.
  induction s1 as [| c s1 IH]; rewrite ?append_cons, ?append_nil_l; simpl.
  - reflexivity.
  - rewrite IH. apply andb_false_r.
Qed.

(** A text followed by a hyphen and digits splits in one way only. *)
Lemma dash_digits_split (s s' d d' : string) :
  all_digits d = true -> all_digits d' = true ->
  s ++ "-" ++ d = s' ++ "-" ++ d' -> s = s' /\ d = d'.
Proof.
  intros Hd Hd'.
  change ("-" ++ d) with (String "-" d).
  change ("-" ++ d') with (String "-" d').
  revert s'.
  induction s as [| c s IH]; intros [| c' s'] E;
    rewrite ?append_cons, ?append_nil_l in E.
  - injection E as E. auto.
  - injection E as Ec E. subst d. rewrite all_digits_no_dash in Hd.
    discriminate.
  - injection E as Ec E. subst d'. rewrite all_digits_no_dash in Hd'.
    discriminate.
  - injection E as -> E. destruct (IH s' E) as [-> ->]. auto.
Qed.

Lemma pretty_nat_digits (n : nat) : all_digits (pretty n) = true.
Proof.
  unfold pretty, pretty_nat, pretty, pretty_N.
  destruct (decide (N.of_nat n = 0%N)); [reflexivity |].
  apply pretty_N_go_digits. reflexivity.
Qed.

Lemma recommendationId_inj (t t' : string) (i j : nat) :
  recommendationId t i = recommendationId t' j -> t = t' /\ i = j.
Proof.
  unfold recommendationId. intros E.
  apply dash_digits_split in E as [-> E]; try apply pretty_nat_digits.
  split; [reflexivity |]. exact (inj pretty _ _ E).
Qed.

Lemma visibleFrom_spec (start : nat) (recommendations : list Recommendation.t)
    (ignored : gset string) (index : nat) (r : Recommendation.t) :
  In (index, r) (visibleFrom start recommendations ignored) <->
  (start <= index)%nat
  /\ recommendations !! (index - start)%nat = Some r
  /\ recommendationId (Recommendation.type r) index ∉ ignored.
Proof.
  revert start. induction recommendations as [| r0 rest IH]; intros start.
  - simpl. split; [tauto |]. intros (_ & H & _). discriminate.
  - simpl. case_bool_decide as Hign; simpl; rewrite IH.
    + split.
      * intros (Hle & Hl & Hn). split; [lia |]. split; [| exact Hn].
        replace (index - start)%nat with (S (index - S start)) by lia.
        exact Hl.
      * intros (Hle & Hl & Hn).
        destruct (index - start)%nat as [| k] eqn:Ek.
        -- injection Hl as ->. assert (index = start) by lia. subst index.
           contradiction.
        -- split; [lia |]. split; [| exact Hn].
           replace (index - S start)%nat with k by lia. exact Hl.
    + split.
      * intros [[= <- <-] | (Hle & Hl & Hn)].
        -- rewrite Nat.sub_diag. auto.
        -- split; [lia |]. split; [| exact Hn].
           replace (index - start)%nat with (S (index - S start)) by lia.
           exact Hl.
      * intros (Hle & Hl & Hn).
        destruct (index - start)%nat as [| k] eqn:Ek.
        -- injection Hl as ->. left. f_equal. lia.
        -- right. split; [lia |]. split; [| exact Hn].
           replace (index - S start)%nat with k by lia. exact Hl.
Qed.

(** X23: ignoring is keyed by type and position.  After
    [handleIgnoreRule] for a recommendation of type [type] at [index], a
    list of recommendations shows exactly what it showed before, except
    the entry at that index when it has that type: this holds for the list
    the click came from and for any list fetched later, and no entry at
    another index or of another type is ever hidden by it. *)
Theorem ignoring_hides_one_position
    (type : string) (index : nat) (ignored : gset string)
    (recommendations : list Recommendation.t)
    (position : nat) (r : Recommendation.t) :
  let ignored' := fst (handleIgnoreRule type index ignored) in
  In (position, r) (visibleRecommendations recommendations ignored') <->
  In (position, r) (visibleRecommendations recommendations ignored)
  /\ ~ (position = index /\ Recommendation.type r = type).
Proof.
  cbv zeta. unfold visibleRecommendations, handleIgnoreRule. simpl.
  rewrite !visibleFrom_spec, not_elem_of_union, not_elem_of_singleton.
  split.
  - intros (Hle & Hl & Hne & Hn). repeat split; auto.
    intros [-> <-]. apply Hne. reflexivity.
  - intros ((Hle & Hl & Hn) & Hdiff). repeat split; auto.
    intros E. apply recommendationId_inj in E as [E1 E2]. auto.
Qed.

(* ===================================================================== *)
(** * The rule builders *)
(* ===================================================================== *)

Lemma includes_In (x : string) (l : list string) :
  includes x l = true <-> In x l.
Proof.
  unfold includes. rewrite existsb_exists. split.
  - intros (y & Hy & E). apply String.eqb_eq in E. congruence.
  - intros H. exists x. split; [exact H | apply String.eqb_refl].
Qed.

Lemma NoDup_list_filter {A : Type} (f : A -> bool) (l : list A) :
  NoDup l -> NoDup (List.filter f l).
Proof.
  induction l as [| x l IH]; simpl; intros H; [constructor |].
  apply NoDup_cons in H as [Hx Hl].
  destruct (f x); [| auto].
  apply NoDup_cons. split; [| auto].
  rewrite list_elem_of_In, filter_In, <- list_elem_of_In. tauto.
Qed.

(** X24: toggling a task flips its selection and nothing else: the task
    is selected afterwards exactly when it was not before, every other
    task keeps its state, and a selection without repetitions stays
    without repetitions. *)
Theorem task_toggle_flips_one (taskId other : string) (prev : list string) :
  NoDup prev ->
  NoDup (handleTaskToggle taskId prev)
  /\ (In taskId (handleTaskToggle taskId prev) <-> ~ In taskId prev)
  /\ (other <> taskId ->
      (In other (handleTaskToggle taskId prev) <-> In other prev)).
Proof.
  intros Hnd. unfold handleTaskToggle.
  destruct (includes taskId prev) eqn:Hinc.
  - apply includes_In in Hinc. split; [apply NoDup_list_filter, Hnd |].
    split.
    + rewrite filter_In, negb_true_iff, String.eqb_neq. tauto.
    + intros Hne. rewrite filter_In, negb_true_iff, String.eqb_neq. tauto.
  - assert (Hnot : ~ In taskId prev).
    { intros H. apply includes_In in H. congruence. }
    split.
    + apply NoDup_app. split; [exact Hnd |]. split.
      * intros x Hx Hx'. apply list_elem_of_In in Hx, Hx'.
        destruct Hx' as [<- | []]. contradiction.
      * apply NoDup_singleton.
    + split.
      * rewrite in_app_iff. simpl. tauto.
      * intros Hne. rewrite in_app_iff. simpl. intuition congruence.
Qed.

Lemma task_toggle_flips_one_witness :
  handleTaskToggle "7" ["3"; "7"] = ["3"]
  /\ handleTaskToggle "7" ["3"] = ["3"; "7"]
  /\ NoDup (handleTaskToggle "7" ["3"; "7"]).
Proof.
  repeat split.
  destruct (task_toggle_flips_one "7" "3" ["3"; "7"]) as [H _].
  - apply NoDup_cons. split; [| apply NoDup_singleton].
    rewrite list_elem_of_In. intros [E | []]. discriminate E.
  - exact H.
Defined.

Lemma append_nil_r (s : string) : s ++ "" = s.
Proof.
  induction s as [| c s IH]; rewrite ?append_cons, ?append_nil_l;
    congruence.
Qed.

Lemma append_assoc (s1 s2 s3 : string) :
  s1 ++ (s2 ++ s3) = (s1 ++ s2) ++ s3.
Proof.
  induction s1 as [| c s1 IH]; rewrite ?append_cons, ?append_nil_l;
    congruence.
Qed.

Lemma join_contains (separator id : string) (l : list string) :
  In id l -> exists pre post, join separator l = pre ++ id ++ post.
Proof.
  induction l as [| x [| y rest] IH]; intros Hin.
  - destruct Hin.
  - destruct Hin as [-> | []]. exists "", "". simpl.
    rewrite append_nil_l. symmetry. apply append_nil_r.
  - destruct Hin as [-> | Hin].
    + exists "", (separator ++ join separator (y :: rest)).
      rewrite append_nil_l. reflexivity.
    + destruct (IH Hin) as (pre & post & E).
      exists (x ++ separator ++ pre), post.
      change (join separator (x :: y :: rest))
        with (x ++ separator ++ join separator (y :: rest)).
      rewrite E. rewrite <- !append_assoc. reflexivity.
Qed.

(** X25: the texts the co-run builder reports.  With no task selected
    both the condition and the action are empty; as soon as one task is
    selected both are non-empty, and they contain the ID of every selected
    task. *)
Theorem coRun_texts_name_every_task (selectedTasks : list string)
    (taskId : string) :
  In taskId selectedTasks ->
  (exists pre post, coRunCondition selectedTasks = pre ++ taskId ++ post)
  /\ (exists pre post, coRunAction selectedTasks = pre ++ taskId ++ post)
  /\ coRunCondition selectedTasks <> ""
  /\ coRunAction selectedTasks <> ""
  /\ coRunCondition [] = "" /\ coRunAction [] = "".
Proof.
  intros Hin. destruct (join_contains ", " taskId selectedTasks Hin)
    as (pre & post & E).
  destruct selectedTasks as [| x rest]; [destruct Hin |].
  unfold coRunCondition, coRunAction. rewrite E.
  repeat split; try discriminate.
  - exists ("tasks: [" ++ pre), (post ++ "]").
    rewrite <- !append_assoc. reflexivity.
  - exists ("Schedule tasks " ++ pre), (post ++ " to run together").
    rewrite <- !append_assoc. reflexivity.
Qed.

Lemma coRun_texts_name_every_task_witness :
  coRunCondition ["3"; "7"] = "tasks: [3, 7]"
  /\ exists pre post, coRunCondition ["3"; "7"] = pre ++ "7" ++ post.
Proof.
  split; [reflexivity |].
  destruct (coRun_texts_name_every_task ["3"; "7"] "7"
              (or_intror (or_introl eq_refl))) as [H _].
  exact H.
Defined.

Lemma insertSorted_In (x y : Z) (l : list Z) :
  In y (insertSorted x l) <-> y = x \/ In y l.
Proof.
  induction l as [| z l IH]; simpl.
  - intuition congruence.
  - destruct (x <=? z)%Z; simpl; [| rewrite IH]; intuition congruence.
Qed.

Lemma insertSorted_ascending (x : Z) (l : list Z) :
  strictlyAscending l -> ~ In x l -> strictlyAscending (insertSorted x l).
Proof.
  induction l as [| z l IH]; simpl; intros Hs Hx.
  - split; [constructor | exact I].
  - destruct Hs as [Hz Hl]. destruct (Z.leb_spec x z) as [Hle | Hgt]; simpl.
    + assert (x < z)%Z by lia. split; [| auto].
      constructor; [assumption |].
      eapply List.Forall_impl; [| exact Hz]. simpl. intros; lia.
    + split; [| apply IH; tauto].
      apply List.Forall_forall. intros y Hy.
      apply insertSorted_In in Hy as [-> | Hy]; [lia |].
      rewrite List.Forall_forall in Hz. auto.
Qed.

Lemma sortAscending_In (y : Z) (l : list Z) :
  In y (sortAscending l) <-> In y l.
Proof.
  induction l as [| x l IH]; simpl; [tauto |].
  rewrite insertSorted_In, IH. intuition congruence.
Qed.

Lemma sortAscending_ascending (l : list Z) :
  NoDup l -> strictlyAscending (sortAscending l).
Proof.
  induction l as [| x l IH]; simpl; intros H; [exact I |].
  apply NoDup_cons in H as [Hx Hl].
  apply insertSorted_ascending; [auto |].
  rewrite sortAscending_In, <- list_elem_of_In. exact Hx.
Qed.

Lemma ascending_NoDup (l : list Z) : strictlyAscending l -> NoDup l.
Proof.
  induction l as [| x l IH]; simpl; [constructor |].
  intros [Hx Hl]. apply NoDup_cons. split; [| auto].
  rewrite list_elem_of_In. intros Hin.
  rewrite List.Forall_forall in Hx. specialize (Hx x Hin). lia.
Qed.

Lemma ascending_filter (f : Z -> bool) (l : list Z) :
  strictlyAscending l -> strictlyAscending (List.filter f l).
Proof.
  induction l as [| x l IH]; simpl; [auto |].
  intros [Hx Hl]. destruct (f x); simpl; [| auto].
  split; [| auto]. apply List.Forall_forall. intros y Hy.
  apply filter_In in Hy as [Hy _].
  rewrite List.Forall_forall in Hx. auto.
Qed.

Lemma ascending_seqZ (len : nat) (start : Z) :
  strictlyAscending (seqZ start (Z.of_nat len)).
Proof.
  revert start. induction len as [| len IH]; intros start.
  - rewrite seqZ_nil by lia. exact I.
  - rewrite seqZ_cons by lia. simpl. split.
    + apply List.Forall_forall. intros y Hy.
      apply list_elem_of_In, elem_of_seqZ in Hy. lia.
    + replace (Z.pred (Z.of_nat (S len))) with (Z.of_nat len) by lia.
      apply IH.
Qed.

Lemma existsb_Zeqb (x : Z) (l : list Z) :
  existsb (Z.eqb x) l = true <-> In x l.
Proof.
  rewrite existsb_exists. split.
  - intros (y & Hy & E). apply Z.eqb_eq in E. congruence.
  - intros H. exists x. split; [exact H | apply Z.eqb_refl].
Qed.

(** X26: the allowed phases stay in order.  On a list in strictly
    ascending order, toggling a phase yields a list in strictly ascending
    order, in which that phase is present exactly when it was absent
    before and every other phase is as before; selecting a range yields
    exactly the integers from [start] to [end], in ascending order, and
    nothing when [end] is before [start]. *)
Theorem phases_stay_ascending (phase other start end_ x : Z) (prev : list Z) :
  strictlyAscending prev ->
  strictlyAscending (handlePhaseToggle phase prev)
  /\ (In phase (handlePhaseToggle phase prev) <-> ~ In phase prev)
  /\ (In other (handlePhaseToggle phase prev) <->
        (other <> phase /\ In other prev)
        \/ (other = phase /\ ~ In phase prev))
  /\ strictlyAscending (handlePhaseRangeSelect start end_)
  /\ (In x (handlePhaseRangeSelect start end_) <-> (start <= x <= end_)%Z).
Proof.
  intros Hs. unfold handlePhaseToggle, handlePhaseRangeSelect.
  assert (Hrange : strictlyAscending (seqZ start (end_ - start + 1))
                   /\ (In x (seqZ start (end_ - start + 1))
                       <-> (start <= x <= end_)%Z)).
  { split.
    - destruct (Z_lt_le_dec (end_ - start + 1) 0) as [Hneg | Hpos].
      + rewrite seqZ_nil by lia. exact I.
      + rewrite <- (Z2Nat.id (end_ - start + 1)) by lia.
        apply ascending_seqZ.
    - rewrite <- list_elem_of_In, elem_of_seqZ. lia. }
  destruct (existsb (Z.eqb phase) prev) eqn:Hinc.
  - apply existsb_Zeqb in Hinc.
    split; [apply ascending_filter, Hs |].
    split; [| split; [| exact Hrange]].
    + rewrite filter_In, negb_true_iff, Z.eqb_neq. tauto.
    + rewrite filter_In, negb_true_iff, Z.eqb_neq. tauto.
  - assert (Hnot : ~ In phase prev).
    { intros H. apply existsb_Zeqb in H. congruence. }
    split.
    { apply sortAscending_ascending, NoDup_app.
      split; [apply ascending_NoDup, Hs |]. split; [| apply NoDup_singleton].
      intros y Hy Hy'. apply list_elem_of_In in Hy, Hy'.
      destruct Hy' as [<- | []]. contradiction. }
    split; [| split; [| exact Hrange]].
    + rewrite sortAscending_In, in_app_iff. simpl. tauto.
    + rewrite sortAscending_In, in_app_iff. simpl.
      destruct (Z.eq_dec other phase) as [-> | Hne]; intuition congruence.
Qed.

Lemma phases_stay_ascending_witness :
  strictlyAscending (handlePhaseToggle 2 [1; 3]%Z)
  /\ handlePhaseToggle 2 [1; 3]%Z = [1; 2; 3]%Z
  /\ handlePhaseToggle 3 [1; 3]%Z = [1]%Z
  /\ handlePhaseRangeSelect 4 6 = [4; 5; 6]%Z.
Proof.
  assert (Hprev : strictlyAscending [1; 3]%Z).
  { simpl. repeat constructor. }
  destruct (phases_stay_ascending 2 0 0 0 0 [1; 3]%Z Hprev) as [H _].
  split; [exact H |]. repeat split.
Defined.

Lemma validateForm_empty (trim : string -> string) (form : RuleForm.t) :
  validateForm trim form = ∅ <->
  (trim (RuleForm.ruleName form) =? "") = false
  /\ (RuleForm.ruleType form =? "") = false
  /\ (trim (RuleForm.ruleDescription form) =? "") = false
  /\ ((RuleForm.priority form <? 1) || (10 <? RuleForm.priority form))%Z
     = false
  /\ truthy (RuleForm.condition form) = true.
Proof.
  unfold validateForm.
  destruct (trim (RuleForm.ruleName form) =? "");
    destruct (RuleForm.ruleType form =? "");
    destruct (trim (RuleForm.ruleDescription form) =? "");
    destruct ((RuleForm.priority form <? 1) || (10 <? RuleForm.priority form))%Z;
    destruct (truthy (RuleForm.condition form));
    simpl; split;
    try (intros (? & ? & ? & ? & ?); discriminate);
    try (intros H; exfalso; apply insert_non_empty in H; exact H);
    try (intros H; exfalso; apply map_non_empty_singleton in H; exact H);
    auto.
Qed.

(** X27: what the rule form lets through.  [handleSave] hands a rule to
    [onSave] exactly when the trimmed name and description are non-empty,
    a type is chosen, the priority lies between 1 and 10 and the
    configured condition is truthy; the rule then carries the form's
    fields, with that very condition.  In particular a co-run rule with no
    task selected is never saved, and with at least one task selected the
    saved condition is the builder's text. *)
Theorem saved_rules_are_complete (trim : string -> string)
    (form : RuleForm.t) (selectedTasks : list string) :
  (match handleSave trim form with
   | Some rule =>
       trim (RuleForm.ruleName form) <> ""
       /\ RuleForm.ruleType form <> ""
       /\ trim (RuleForm.ruleDescription form) <> ""
       /\ (1 <= RuleForm.priority form <= 10)%Z
       /\ truthy (RuleForm.condition form) = true
       /\ rule = RuleData.mk (RuleForm.ruleName form)
                   (RuleForm.ruleDescription form) (RuleForm.ruleType form)
                   (RuleForm.priority form) (RuleForm.isActive form)
                   (RuleForm.condition form)
                   (js_or (RuleForm.action form) (JStr ""))
   | None =>
       trim (RuleForm.ruleName form) = ""
       \/ RuleForm.ruleType form = ""
       \/ trim (RuleForm.ruleDescription form) = ""
       \/ (RuleForm.priority form < 1)%Z
       \/ (10 < RuleForm.priority form)%Z
       \/ truthy (RuleForm.condition form) = false
   end)
  /\ handleSave trim (withCoRunTasks [] form) = None
  /\ (match handleSave trim (withCoRunTasks selectedTasks form) with
      | Some rule =>
          selectedTasks <> []
          /\ RuleData.condition rule = JStr (coRunCondition selectedTasks)
          /\ RuleData.action rule = JStr (coRunAction selectedTasks)
      | None => True
      end).
Proof.
  assert (Hsave : forall f,
    match handleSave trim f with
    | Some rule =>
        validateForm trim f = ∅
        /\ rule = RuleData.mk (RuleForm.ruleName f)
                    (RuleForm.ruleDescription f) (RuleForm.ruleType f)
                    (RuleForm.priority f) (RuleForm.isActive f)
                    (js_or (RuleForm.condition f) (JStr ""))
                    (js_or (RuleForm.action f) (JStr ""))
    | None => validateForm trim f <> ∅
    end).
  { intros f. unfold handleSave. case_bool_decide; auto. }
  split; [| split].
  - specialize (Hsave form). destruct (handleSave trim form) as [rule |].
    + destruct Hsave as [Hvalid ->].
      apply validateForm_empty in Hvalid as (H1 & H2 & H3 & H4 & H5).
      apply String.eqb_neq in H1, H2, H3.
      apply orb_false_iff in H4 as [H4 H4'].
      apply Z.ltb_ge in H4, H4'.
      repeat split; auto. unfold js_or. rewrite H5. reflexivity.
    + rewrite validateForm_empty in Hsave.
      destruct (String.eqb_spec (trim (RuleForm.ruleName form)) ""); auto.
      destruct (String.eqb_spec (RuleForm.ruleType form) ""); auto.
      destruct (String.eqb_spec (trim (RuleForm.ruleDescription form)) "");
        auto.
      destruct (Z.ltb_spec (RuleForm.priority form) 1); auto.
      destruct (Z.ltb_spec 10 (RuleForm.priority form)); auto 6.
      destruct (truthy (RuleForm.condition form)); auto 7.
      exfalso. apply Hsave. auto.
  - specialize (Hsave (withCoRunTasks [] form)).
    destruct (handleSave trim (withCoRunTasks [] form)); [| reflexivity].
    destruct Hsave as [Hvalid _].
    apply validateForm_empty in Hvalid as (_ & _ & _ & _ & H5).
    discriminate H5.
  - specialize (Hsave (withCoRunTasks selectedTasks form)).
    destruct (handleSave trim (withCoRunTasks selectedTasks form));
      [| exact I].
    destruct Hsave as [Hvalid ->].
    apply validateForm_empty in Hvalid as (_ & _ & _ & _ & H5).
    destruct selectedTasks as [| t rest]; [discriminate H5 |].
    repeat split; discriminate.
Qed.

Lemma gateOnGrid_table :
  forallb (fun i => forallb (fun j => forallb (fun k =>
      Bool.eqb (gateOnGrid i j k) (Nat.eqb (i + j + k) 20))
    (seq 0 21)) (seq 0 21)) (seq 0 21) = true.
Proof. vm_compute. reflexivity. Qed.

Lemma gateOnGrid_spec (i j k : nat) :
  i <= 20 -> j <= 20 -> k <= 20 ->
  gateOnGrid i j k = Nat.eqb (i + j + k) 20.
Proof.
  intros Hi Hj Hk.
  pose proof gateOnGrid_table as T.
  rewrite forallb_forall in T.
  specialize (T i ltac:(apply in_seq; lia)).
  rewrite forallb_forall in T.
  specialize (T j ltac:(apply in_seq; lia)).
  rewrite forallb_forall in T.
  specialize (T k ltac:(apply in_seq; lia)).
  apply Bool.eqb_prop in T. exact T.
Qed.

(** X28: on the sliders the gate is exact.  Each weight slider has 21
    positions, 0 to 20, standing for 0.00 to 1.00 in steps of 0.05.  Once
    the three sliders have been moved to positions [i], [j] and [k], in
    any order and from any earlier weights, the "Save Priorities" button
    is enabled exactly when [i + j + k = 20], and the warning is shown
    exactly when it is not: binary64 rounding neither locks out a
    combination that sums to 1 nor lets another one through. *)
Theorem sliders_gate_is_exact (i j k : nat) (prev : RulePriorities) :
  i <= 20 -> j <= 20 -> k <= 20 ->
  let set key n := handlePriorityChange key (sliderValue n) in
  let p := set KCost k (set KFairness j (set KPriorityLevel i prev)) in
  p = set KPriorityLevel i (set KCost k (set KFairness j prev))
  /\ p = set KFairness j (set KPriorityLevel i (set KCost k prev))
  /\ (saveEnabled false p = true <-> i + j + k = 20)
  /\ (weightWarning p = true <-> i + j + k <> 20).
Proof.
  intros Hi Hj Hk set p.
  pose proof (gateOnGrid_spec i j k Hi Hj Hk) as G.
  unfold gateOnGrid, saveEnabled, saveDisabled in G. simpl in G.
  split; [reflexivity |]. split; [reflexivity |].
  unfold saveEnabled, saveDisabled, weightWarning.
  subst p set. simpl.
  destruct (Nat.eqb_spec (i + j + k) 20) as [E | E].
  - apply negb_true_iff in G. rewrite G. simpl.
    split; split; intros; try assumption; try reflexivity;
      try discriminate; contradiction.
  - apply negb_false_iff in G. rewrite G. simpl.
    split; split; intros; try assumption; try reflexivity;
      try discriminate; contradiction.
Qed.

Lemma sliders_gate_is_exact_witness :
  saveEnabled false
    (handlePriorityChange KCost (sliderValue 6)
       (handlePriorityChange KFairness (sliderValue 6)
          (handlePriorityChange KPriorityLevel (sliderValue 8)
             (mkRulePriorities lit_0_4 lit_0_3 lit_0_25)))) = true.
Proof.
  destruct (sliders_gate_is_exact 8 6 6
              (mkRulePriorities lit_0_4 lit_0_3 lit_0_25)
              ltac:(lia) ltac:(lia) ltac:(lia)) as (_ & _ & [_ H] & _).
  apply H. reflexivity.
Defined.

(** Without a truthy [id] the key of a row ends in a hyphen and the
    index. *)
Lemma getRowId_suffix (entity : EntityType) (row : Item) (index : nat) :
  truthy (prop row "id") = false ->
  exists stem, getRowId entity row index = stem ++ "-" ++ pretty index.
Proof.
  intros Hid. unfold getRowId. rewrite Hid.
  destruct (truthy (js_or _ _)).
  - exists (entityName entity ++ "-" ++
            toString (js_or (prop row "ClientID")
                        (js_or (prop row "WorkerID") (prop row "TaskID")))).
    rewrite <- !append_assoc. reflexivity.
  - exists (entityName entity ++ "-row").
    rewrite <- !append_assoc. reflexivity.
Qed.

(** X29: the keys of the table rows.  Two rows without a truthy [id] that
    are rendered at different positions never get the same key, whatever
    their [ClientID], [WorkerID] or [TaskID] hold (hyphens included).  A
    row with a truthy [id] is keyed by that [id] alone: its key is
    [String(row.id)], the [id] itself when it is a string, whatever the
    entity, the position and the other fields are, so that two such rows
    with the same [id] share their key. *)
Theorem row_keys_differ_by_position (entity : EntityType)
    (row row' : Item) (index index' : nat) :
  truthy (prop row "id") = false ->
  truthy (prop row' "id") = false ->
  index <> index' ->
  getRowId entity row index <> getRowId entity row' index'
  /\ (forall (entity' : EntityType) (withId : Item),
        truthy (prop withId "id") = true ->
        getRowId entity' withId index = toString (prop withId "id")
        /\ (forall s : string,
              withId !! "id" = Some (JStr s) ->
              getRowId entity' withId index = s)
        /\ (forall other : Item,
              other !! "id" = withId !! "id" ->
              getRowId entity other index' = getRowId entity' withId index)).
Proof.
  intros Hid Hid' Hne. split.
  - destruct (getRowId_suffix entity row index Hid) as [s ->].
    destruct (getRowId_suffix entity row' index' Hid') as [s' ->].
    intros E.
    apply dash_digits_split in E as [_ E]; try apply pretty_nat_digits.
    apply Hne. exact (inj pretty _ _ E).
  - intros entity' withId H.
    assert (Hkey : getRowId entity' withId index
                   = toString (prop withId "id")).
    { unfold getRowId. rewrite H. reflexivity. }
    split; [exact Hkey |]. split.
    + intros s Hs. rewrite Hkey. unfold prop. rewrite Hs. reflexivity.
    + intros other Hsame. rewrite Hkey. unfold getRowId.
      assert (Hprop : prop other "id" = prop withId "id").
      { unfold prop. rewrite Hsame. reflexivity. }
      rewrite Hprop, H. reflexivity.
Qed.

Lemma row_keys_differ_by_position_witness :
  getRowId clients {[ "ClientID" := JStr "C-1" ]} 11
  <> getRowId clients {[ "ClientID" := JStr "C-1-1" ]} 1
  /\ getRowId tasks {[ "id" := JStr "t-7"; "TaskID" := JStr "T7" ]} 11
     = "t-7".
Proof.
  assert (H1 : truthy (prop ({[ "ClientID" := JStr "C-1" ]} : Item) "id")
               = false) by reflexivity.
  assert (H2 : truthy (prop ({[ "ClientID" := JStr "C-1-1" ]} : Item) "id")
               = false) by reflexivity.
  assert (H3 : 11%nat <> 1%nat) by lia.
  destruct (row_keys_differ_by_position clients _ _ 11 1 H1 H2 H3)
    as [Hdiffer Hkeyed].
  split; [exact Hdiffer |].
  assert (H4 : truthy (prop ({[ "id" := JStr "t-7"; "TaskID" := JStr "T7" ]}
                               : Item) "id") = true) by reflexivity.
  destruct (Hkeyed tasks _ H4) as (_ & Hstr & _).
  apply Hstr. reflexivity.
Defined.
